(** * The streaming relay of vibe-homepage (src/server.ts)

    A shallow embedding of [streamPersonalWebsite], its inner
    [processBuffer] loop and the WebSocket connection handler, followed by
    the properties the specification states about them.

    JavaScript strings are sequences of UTF-16 code units, upstream chunks
    are byte lists, and the asynchronous session is a state machine that is
    advanced by the events the Node event loop delivers one at a time. *)

From Stdlib Require Import List NArith Arith Bool Lia String Ascii.
From Stdlib Require Import Strings.Byte.
From Stdlib Require Import DecimalN.
Import ListNotations.

Set Warnings "-register-all".

(** ** JavaScript strings *)

Definition jsstring := list N.

(** An ASCII literal as a JavaScript string. *)
Definition lit (s : string) : jsstring :=
  map N_of_ascii (list_ascii_of_string s).

(** JSON text written with apostrophes where the wire has double quotes. *)
Definition jlit (s : string) : jsstring :=
  map (fun c => if N.eqb c 39 then 34%N else c) (lit s).

Fixpoint jseqb (a b : jsstring) : bool :=
  match a, b with
  | [], [] => true
  | x :: a', y :: b' => N.eqb x y && jseqb a' b'
  | _, _ => false
  end.

Definition isEmpty (s : jsstring) : bool :=
  match s with [] => true | _ :: _ => false end.

(** [String.prototype.startsWith]. *)
Fixpoint startsWith (prefix s : jsstring) : bool :=
  match prefix, s with
  | [], _ => true
  | p :: prefix', c :: s' => N.eqb p c && startsWith prefix' s'
  | _ :: _, [] => false
  end.

(** [String.prototype.indexOf]: position of the leftmost occurrence,
    [None] standing for the result -1. *)
Fixpoint indexOf (needle s : jsstring) : option nat :=
  if startsWith needle s then Some 0
  else match s with
       | [] => None
       | _ :: s' => option_map S (indexOf needle s')
       end.

(** [String.prototype.includes]. *)
Definition includes (needle s : jsstring) : bool :=
  match indexOf needle s with Some _ => true | None => false end.

Definition LF : N := 10%N.

(** [s.split('\n')]. *)
Fixpoint split_lines (s : jsstring) : list jsstring :=
  match s with
  | [] => [[]]
  | c :: s' =>
      if N.eqb c LF then [] :: split_lines s'
      else match split_lines s' with
           | line :: lines => (c :: line) :: lines
           | [] => [[c]]
           end
  end.

(** [lines.join(sep)]. *)
Fixpoint join (sep : jsstring) (lines : list jsstring) : jsstring :=
  match lines with
  | [] => []
  | [line] => line
  | line :: lines' => line ++ sep ++ join sep lines'
  end.

(** ECMAScript WhiteSpace and LineTerminator code units: what
    [String.prototype.trim] removes and what the regular expression class
    [\s] matches. *)
Definition isWhiteSpace (c : N) : bool :=
  (N.leb 9 c && N.leb c 13) || N.eqb c 32 || N.eqb c 160 || N.eqb c 5760
  || (N.leb 8192 c && N.leb c 8202) || N.eqb c 8232 || N.eqb c 8233
  || N.eqb c 8239 || N.eqb c 8287 || N.eqb c 12288 || N.eqb c 65279.

Fixpoint dropWhile (p : N -> bool) (s : jsstring) : jsstring :=
  match s with
  | [] => []
  | c :: s' => if p c then dropWhile p s' else s
  end.

Definition trimStart (s : jsstring) : jsstring := dropWhile isWhiteSpace s.
Definition trimEnd (s : jsstring) : jsstring :=
  rev (dropWhile isWhiteSpace (rev s)).
(** [String.prototype.trim]. *)
Definition trim (s : jsstring) : jsstring := trimEnd (trimStart s).

(** Decimal rendering of a non-negative integer, as a template literal
    renders an integral Number below 10^21. *)
Fixpoint uint_digits (d : Decimal.uint) : jsstring :=
  match d with
  | Decimal.Nil => []
  | Decimal.D0 d' => 48%N :: uint_digits d'
  | Decimal.D1 d' => 49%N :: uint_digits d'
  | Decimal.D2 d' => 50%N :: uint_digits d'
  | Decimal.D3 d' => 51%N :: uint_digits d'
  | Decimal.D4 d' => 52%N :: uint_digits d'
  | Decimal.D5 d' => 53%N :: uint_digits d'
  | Decimal.D6 d' => 54%N :: uint_digits d'
  | Decimal.D7 d' => 55%N :: uint_digits d'
  | Decimal.D8 d' => 56%N :: uint_digits d'
  | Decimal.D9 d' => 57%N :: uint_digits d'
  end.

Definition decimal (n : N) : jsstring := uint_digits (N.to_uint n).

(** ** TextDecoder('utf-8')

    The WHATWG UTF-8 decoder: a state machine that consumes one byte at a
    time and keeps its state between [decode(value, { stream: true })]
    calls.  Malformed input yields U+FFFD (the decoder is not fatal); the
    first code point is dropped when it is a byte order mark. *)

Record TextDecoder := {
  code_point : N;
  bytes_seen : N;
  bytes_needed : N;
  lower_boundary : N;
  upper_boundary : N;
  bom_seen : bool
}.

Definition newTextDecoder : TextDecoder :=
  {| code_point := 0; bytes_seen := 0; bytes_needed := 0;
     lower_boundary := 128; upper_boundary := 191; bom_seen := false |}.

Definition between (lo hi b : N) : bool := N.leb lo b && N.leb b hi.

(** A code point as UTF-16 code units. *)
Definition utf16 (cp : N) : jsstring :=
  if N.ltb cp 65536 then [cp]
  else [(55296 + (cp - 65536) / 1024)%N; (56320 + (cp - 65536) mod 1024)%N].

(** Serialising one decoded code point, with the byte order mark check. *)
Definition emit (d : TextDecoder) (cp : N) : TextDecoder * jsstring :=
  let d' := {| code_point := code_point d; bytes_seen := bytes_seen d;
               bytes_needed := bytes_needed d;
               lower_boundary := lower_boundary d;
               upper_boundary := upper_boundary d; bom_seen := true |} in
  if negb (bom_seen d) && N.eqb cp 65279 then (d', []) else (d', utf16 cp).

Definition expect (d : TextDecoder) (needed cp lo hi : N) : TextDecoder :=
  {| code_point := cp; bytes_seen := 0; bytes_needed := needed;
     lower_boundary := lo; upper_boundary := hi; bom_seen := bom_seen d |}.

(** The handler when no continuation byte is awaited. *)
Definition utf8_lead (d : TextDecoder) (b : N) : TextDecoder * jsstring :=
  if N.leb b 127 then emit d b
  else if between 194 223 b then (expect d 1 (N.land b 31) 128 191, [])
  else if between 224 239 b then
    (expect d 2 (N.land b 15)
       (if N.eqb b 224 then 160%N else 128%N)
       (if N.eqb b 237 then 159%N else 191%N), [])
  else if between 240 244 b then
    (expect d 3 (N.land b 7)
       (if N.eqb b 240 then 144%N else 128%N)
       (if N.eqb b 244 then 143%N else 191%N), [])
  else emit d 65533.

(** One byte through the decoder. *)
Definition utf8_byte (d : TextDecoder) (b : N) : TextDecoder * jsstring :=
  if N.eqb (bytes_needed d) 0 then utf8_lead d b
  else if negb (between (lower_boundary d) (upper_boundary d) b) then
    (* error; the byte is put back and read again in the initial state *)
    let (d1, o1) := emit (expect d 0 0 128 191) 65533 in
    let (d2, o2) := utf8_lead d1 b in
    (d2, o1 ++ o2)
  else
    let cp := N.lor (N.shiftl (code_point d) 6) (N.land b 63) in
    let seen := (bytes_seen d + 1)%N in
    if N.eqb seen (bytes_needed d) then emit (expect d 0 0 128 191) cp
    else ({| code_point := cp; bytes_seen := seen;
             bytes_needed := bytes_needed d;
             lower_boundary := 128; upper_boundary := 191;
             bom_seen := bom_seen d |}, []).

(** [decoder.decode(value, { stream: true })]. *)
Fixpoint decode_stream (d : TextDecoder) (value : list byte)
  : TextDecoder * jsstring :=
  match value with
  | [] => (d, [])
  | b :: value' =>
      let (d1, o1) := utf8_byte d (Byte.to_N b) in
      let (d2, o2) := decode_stream d1 value' in
      (d2, o1 ++ o2)
  end.

(** [decoder.decode()]: end of input, an unfinished sequence is replaced. *)
Definition decode_end (d : TextDecoder) : jsstring :=
  if N.eqb (bytes_needed d) 0 then []
  else snd (emit (expect d 0 0 128 191) 65533).

(** ** JSON values and thrown values *)

Inductive json :=
| JNull
| JBool (b : bool)
| JNumber (lexeme : jsstring)
| JString (s : jsstring)
| JArray (elements : list json)
| JObject (members : list (jsstring * json)).

(** What a [catch] clause can receive: an [Error] instance with its [name]
    and [message], or some other value. *)
Inductive thrown :=
| ErrorObject (name message : jsstring)
| OtherValue.

(** Computations that may throw. *)
Inductive exc (A : Type) :=
| Val (a : A)
| Exn (e : thrown).
Arguments Val {A} a.
Arguments Exn {A} e.

Definition bind {A B : Type} (m : exc A) (k : A -> exc B) : exc B :=
  match m with
  | Val a => k a
  | Exn e => Exn e
  end.

Notation "x <- m ;; k" := (bind m (fun x => k))
  (at level 61, m at next level, right associativity).

(** The phrase the [catch] clause of [processBuffer] looks for. *)
Definition marker : jsstring := lit "OpenAPI service returned".

(** The parts of the JavaScript engine the relay relies on.  [JSON_parse]
    returns [None] when [JSON.parse] throws a [SyntaxError], whose message is
    [syntaxErrorMessage]; [nullReadMessage] is the message of the [TypeError]
    raised by reading a property of [null]; [numberToString] renders the
    Number denoted by a JSON number lexeme.  The texts of engine messages are
    implementation-defined; V8 quotes at most twenty characters of the
    source in a [SyntaxError], fewer than the phrase the relay looks for. *)
Class Engine := {
  JSON_parse : jsstring -> option json;
  syntaxErrorMessage : jsstring -> jsstring;
  nullReadMessage : jsstring -> jsstring;
  numberToString : jsstring -> jsstring;
  syntaxError_unmarked :
    forall payload,
      includes marker (syntaxErrorMessage payload) = false
}.

(** ** The relay *)

Inductive readyState := OPEN | CLOSING | CLOSED.

(** The records handed to [sendPayload]. *)
Inductive message :=
| MChunk (data : jsstring)
| MDone
| MError (text : jsstring).

(** The upstream response as far as the relay inspects it. *)
Record Response := { status : N; hasBody : bool }.

Definition ok (response : Response) : bool := between 200 299 (status response).

(** The [await] expressions of [streamPersonalWebsite]: where the function
    can be suspended, with the local state it resumes in. *)
Inductive suspension :=
| AwaitFetch
| AwaitText (code : N)
| AwaitRead (buffer : jsstring) (decoder : TextDecoder).

(** How an awaited promise settles. *)
Inductive settlement :=
| FetchResolved (response : Response)
| FetchRejected (e : thrown)
| TextResolved (errorText : jsstring)
| TextRejected
| ReadValue (value : list byte)
| ReadDone
| ReadRejected (e : thrown).

(** How far [streamPersonalWebsite] gets when it is resumed: to its next
    [await], to its end, or to an exception that leaves it. *)
Inductive progress :=
| Suspended (point : suspension)
| Returned
| Threw (e : thrown).

(** What the event loop delivers to a session: the socket leaving the OPEN
    state, its 'close' event, and the settling of the promise the stream
    function awaits. *)
Inductive event :=
| SocketClosing
| SocketClose
| Upstream (p : settlement).

Coercion Upstream : settlement >-> event.

(** A connection: the state of its socket, the suspended stream function
    ([None] once its promise is settled), and the messages sent so far. *)
Record session := {
  socket : readyState;
  stream : option suspension;
  sent : list message
}.

(** How one run of [processBuffer] ends: the loop condition fails, the
    sentinel sets [completed], or an exception leaves the function. *)
Inductive outcome :=
| Drained
| Completed
| Thrown (e : thrown).

Definition delimiter : jsstring := [LF; LF].
Definition dataPrefix : jsstring := lit "data:".
Definition DONE : jsstring := lit "[DONE]".
Definition unknownError : jsstring :=
  lit "The OpenAPI service returned an unknown error.".

(** [line.replace(/^data:\s*/, '')]. *)
Definition stripData (line : jsstring) : jsstring :=
  if startsWith dataPrefix line then dropWhile isWhiteSpace (skipn 5 line)
  else line.

(** The payload of a raw event (lines 155-160). *)
Definition extractPayload (rawEvent : jsstring) : jsstring :=
  join [LF]
    (map stripData
       (filter (startsWith dataPrefix) (map trim (split_lines rawEvent)))).

(** Own property of an object created by [JSON.parse]; a repeated key keeps
    its last value. *)
Fixpoint lookup (key : jsstring) (members : list (jsstring * json))
  : option json :=
  match members with
  | [] => None
  | (k, v) :: members' =>
      match lookup key members' with
      | Some v' => Some v'
      | None => if jseqb k key then Some v else None
      end
  end.

Definition typeofString (v : option json) : bool :=
  match v with Some (JString _) => true | _ => false end.

Definition stringValue (v : option json) : jsstring :=
  match v with Some (JString s) => s | _ => [] end.

Definition strictEq (v : option json) (s : jsstring) : bool :=
  match v with Some (JString t) => jseqb t s | _ => false end.

Definition isAbortError (e : thrown) : bool :=
  match e with
  | ErrorObject name _ => jseqb name (lit "AbortError")
  | OtherValue => false
  end.

Definition requestFailedPrefix : jsstring :=
  lit "OpenAPI request failed with status ".

(** The error thrown at line 140. *)
Definition requestFailed (code : N) (errorText : jsstring) : thrown :=
  ErrorObject (lit "Error")
    (trim (requestFailedPrefix ++ decimal code ++ lit ": " ++ errorText)).

(** The error thrown at line 117. *)
Definition notConfigured : thrown :=
  ErrorObject (lit "Error")
    (lit "OPENAPI_API_KEY is not configured. Please add it to your environment.").

(** What an aborted [fetch] or [read] is rejected with. *)
Definition abortError : thrown :=
  ErrorObject (lit "AbortError") (lit "This operation was aborted").

(** The [catch] clause around the read loop (lines 240-246). *)
Definition readCatch (e : thrown) : progress :=
  if isAbortError e then Returned else Threw e.

(** [sendPayload] (lines 286-299). *)
Definition sendPayload (s : session) (payload : message) : session :=
  match socket s with
  | OPEN => {| socket := socket s; stream := stream s;
               sent := sent s ++ [payload] |}
  | _ => s
  end.

(** The [onChunk] callback of the connection handler (lines 311-313), once
    per text. *)
Definition onChunks (s : session) (texts : list jsstring) : session :=
  fold_left (fun s text => sendPayload s (MChunk text)) texts s.

Definition settle (s : session) : session :=
  {| socket := socket s; stream := None; sent := sent s |}.

(** The [then] callback (lines 315-318). *)
Definition onFulfilled (s : session) : session :=
  settle (sendPayload s MDone).

(** The [catch] callback (lines 319-332). *)
Definition onRejected (s : session) (e : thrown) : session :=
  if isAbortError e then settle s
  else
    settle (sendPayload s
              (MError match e with
                      | ErrorObject _ text => text
                      | OtherValue =>
                          lit "Unknown error while contacting OpenAPI."
                      end)).

(** The handler's side of one resumption of the stream function: the
    [onChunk] calls it made, then the callback of how it went on. *)
Definition conclude (s : session) (texts : list jsstring) (r : progress)
  : session :=
  let s := onChunks s texts in
  match r with
  | Suspended point =>
      {| socket := socket s; stream := Some point; sent := sent s |}
  | Returned => onFulfilled s
  | Threw e => onRejected s e
  end.

(** [abortController.abort()] rejects the promise the stream function
    awaits. *)
Definition aborted (point : suspension) : settlement :=
  match point with
  | AwaitFetch => FetchRejected abortError
  | AwaitText _ => TextRejected
  | AwaitRead _ _ => ReadRejected abortError
  end.

(** [streamPersonalWebsite] from its call to the first [await]
    (lines 111-132). *)
Definition streamPersonalWebsite_call (apiKey : option jsstring) : progress :=
  match apiKey with
  | Some (_ :: _) => Suspended AwaitFetch
  | _ => Threw notConfigured
  end.

Section Relay.

Context {E : Engine}.

(** [v.key] for the keys the relay reads (type, delta, choices, content,
    text, error, message), none of which is defined on a prototype: [None]
    is [undefined]; reading from [null] throws. *)
Definition getProp (v : json) (key : jsstring) : exc (option json) :=
  match v with
  | JNull => Exn (ErrorObject (lit "TypeError") (nullReadMessage key))
  | JObject members => Val (lookup key members)
  | _ => Val None
  end.

(** ToBoolean. *)
Definition truthy (v : option json) : bool :=
  match v with
  | None | Some JNull => false
  | Some (JBool b) => b
  | Some (JNumber n) => negb (jseqb (numberToString n) (lit "0"))
  | Some (JString s) => negb (isEmpty s)
  | Some (JArray _) | Some (JObject _) => true
  end.

(** ToString, as [new Error(message)] applies it. *)
Fixpoint toString (v : json) : jsstring :=
  match v with
  | JNull => lit "null"
  | JBool true => lit "true"
  | JBool false => lit "false"
  | JNumber n => numberToString n
  | JString s => s
  | JArray elements =>
      join (lit ",")
        (map (fun e => match e with JNull => [] | _ => toString e end)
           elements)
  | JObject _ => lit "[object Object]"
  end.

(** The [try] block of [processBuffer] (lines 171-196): [Val (Some text)]
    when [onChunk(text)] is called, [Val None] when no branch applies. *)
Definition tryBlock (payload : jsstring) : exc (option jsstring) :=
  match JSON_parse payload with
  | None => Exn (ErrorObject (lit "SyntaxError") (syntaxErrorMessage payload))
  | Some parsed =>
      type <- getProp parsed (lit "type") ;;
      delta <- getProp parsed (lit "delta") ;;
      if strictEq type (lit "response.output_text.delta") && typeofString delta
      then Val (Some (stringValue delta))
      else
        choices <- getProp parsed (lit "choices") ;;
        match choices with
        | Some (JArray (choice :: _)) =>
            choice_delta <- getProp choice (lit "delta") ;;
            match choice_delta with
            | Some d =>
                if truthy choice_delta then
                  content <- getProp d (lit "content") ;;
                  if truthy content && typeofString content
                  then Val (Some (stringValue content))
                  else Val None
                else Val None
            | None => Val None
            end
        | _ =>
            content <- getProp parsed (lit "content") ;;
            if typeofString content then Val (Some (stringValue content))
            else
              text <- getProp parsed (lit "text") ;;
              if typeofString text then Val (Some (stringValue text))
              else if strictEq type (lit "response.error") then
                error <- getProp parsed (lit "error") ;;
                message <- match error with
                           | None | Some JNull => Val None
                           | Some e => getProp e (lit "message")
                           end ;;
                Exn (ErrorObject (lit "Error")
                       match message with
                       | None | Some JNull => unknownError
                       | Some m => toString m
                       end)
              else Val None
        end
  end.

(** The [try] block under its [catch] clause (lines 197-210): an exception
    is thrown again only when it is an [Error] whose message includes
    [marker]. *)
Definition handlePayload (payload : jsstring) : exc (option jsstring) :=
  match tryBlock payload with
  | Val r => Val r
  | Exn (ErrorObject name text) =>
      if includes marker text then Exn (ErrorObject name text) else Val None
  | Exn OtherValue => Val None
  end.

(** The [while] loop of [processBuffer] (lines 151-211), on the buffer;
    the result lists the arguments of the [onChunk] calls in order, how the
    function ended, and the buffer it leaves. *)
Fixpoint processBuffer_loop (fuel : nat) (buffer : jsstring)
  : option (list jsstring * outcome * jsstring) :=
  match fuel with
  | O => None
  | S fuel' =>
      match indexOf delimiter buffer with
      | None => Some ([], Drained, buffer)
      | Some newlineIndex =>
          let rawEvent := firstn newlineIndex buffer in
          let buffer := skipn (newlineIndex + 2) buffer in
          let payload := extractPayload rawEvent in
          if isEmpty payload then processBuffer_loop fuel' buffer
          else if jseqb payload DONE then Some ([], Completed, buffer)
          else
            match handlePayload payload with
            | Val (Some text) =>
                match processBuffer_loop fuel' buffer with
                | Some (texts, o, b) => Some (text :: texts, o, b)
                | None => None
                end
            | Val None => processBuffer_loop fuel' buffer
            | Exn e => Some ([], Thrown e, buffer)
            end
      end
  end.

(** Every iteration removes at least the two delimiter characters, so the
    length of the buffer bounds the number of iterations. *)
Definition processBuffer (buffer : jsstring)
  : list jsstring * outcome * jsstring :=
  match processBuffer_loop (S (List.length buffer)) buffer with
  | Some r => r
  | None => ([], Drained, buffer)
  end.

(** [streamPersonalWebsite] from one [await] to the next (lines 134-248):
    the arguments of the [onChunk] calls made on the way and how far the
    function gets.  [None] when the settlement is not one of the promise
    awaited. *)
Definition streamPersonalWebsite (point : suspension) (p : settlement)
  : option (list jsstring * progress) :=
  match point, p with
  | AwaitFetch, FetchResolved response =>
      if negb (ok response) || negb (hasBody response)
      then Some ([], Suspended (AwaitText (status response)))
      else Some ([], Suspended (AwaitRead [] newTextDecoder))
  | AwaitFetch, FetchRejected e => Some ([], Threw e)
  | AwaitText code, TextResolved errorText =>
      Some ([], Threw (requestFailed code errorText))
  | AwaitText code, TextRejected => Some ([], Threw (requestFailed code []))
  | AwaitRead buffer decoder, ReadValue value =>
      let (decoder', decoded) := decode_stream decoder value in
      let '(texts, o, buffer') := processBuffer (buffer ++ decoded) in
      Some (texts,
            match o with
            | Drained => Suspended (AwaitRead buffer' decoder')
            | Completed => Returned
            | Thrown e => readCatch e
            end)
  | AwaitRead buffer decoder, ReadDone =>
      (* not completed: flush the decoder and run processBuffer again *)
      let '(texts, o, _) := processBuffer (buffer ++ decode_end decoder) in
      Some (texts,
            match o with
            | Thrown e => readCatch e
            | _ => Returned
            end)
  | AwaitRead _ _, ReadRejected e => Some ([], readCatch e)
  | _, _ => None
  end.

(** The stream function resumed by a settlement. *)
Definition resume (s : session) (p : settlement) : session :=
  match stream s with
  | Some point =>
      match streamPersonalWebsite point p with
      | Some (texts, r) => conclude s texts r
      | None => s
      end
  | None => s
  end.

(** One turn of the event loop. *)
Definition step (s : session) (ev : event) : session :=
  match ev with
  | SocketClosing =>
      {| socket := match socket s with OPEN => CLOSING | r => r end;
         stream := stream s; sent := sent s |}
  | SocketClose =>
      (* the 'close' handler (lines 305-307) *)
      let s := {| socket := CLOSED; stream := stream s; sent := sent s |} in
      match stream s with
      | Some point => resume s (aborted point)
      | None => s
      end
  | Upstream p => resume s p
  end.

Definition run (s : session) (trace : list event) : session :=
  fold_left step trace s.

(** The connection handler (lines 281-333) up to the first suspension of
    the stream function. *)
Definition connect (apiKey : option jsstring) : session :=
  conclude {| socket := OPEN; stream := None; sent := [] |} []
    (streamPersonalWebsite_call apiKey).

End Relay.

(** ** A sample engine

    An engine to run the relay on concrete streams: a recursive-descent
    parser for the JSON grammar (ECMA-404) and message texts in the style of
    V8.  The parser recurses on fuel, of which [parse] gives it twice the
    length of the text and two; [parse_fuel] below shows that more fuel
    gives the same result.  A number is kept as its lexeme; the sample
    renders integer lexemes exactly and leaves lexemes with a fraction or an
    exponent as they are written, which no stream below contains. *)

Module Sample.

Definition isJsonSpace (c : N) : bool :=
  N.eqb c 9 || N.eqb c 10 || N.eqb c 13 || N.eqb c 32.

Definition skipSpace (s : jsstring) : jsstring := dropWhile isJsonSpace s.

Definition isDigit (c : N) : bool := between 48 57 c.

Fixpoint spanDigits (s : jsstring) : jsstring * jsstring :=
  match s with
  | c :: s' =>
      if isDigit c then let (ds, r) := spanDigits s' in (c :: ds, r)
      else ([], s)
  | [] => ([], [])
  end.

Definition hexDigit (c : N) : option N :=
  if between 48 57 c then Some (c - 48)%N
  else if between 65 70 c then Some (c - 55)%N
  else if between 97 102 c then Some (c - 87)%N
  else None.

Definition hex4 (a b c d : N) : option N :=
  match hexDigit a, hexDigit b, hexDigit c, hexDigit d with
  | Some x, Some y, Some z, Some w => Some (((x * 16 + y) * 16 + z) * 16 + w)%N
  | _, _, _, _ => None
  end.

Definition unescape (c : N) : option N :=
  if N.eqb c 34 || N.eqb c 92 || N.eqb c 47 then Some c
  else if N.eqb c 98 then Some 8%N
  else if N.eqb c 102 then Some 12%N
  else if N.eqb c 110 then Some 10%N
  else if N.eqb c 114 then Some 13%N
  else if N.eqb c 116 then Some 9%N
  else None.

(** The characters of a string literal after its opening quote. *)
Fixpoint scanString (s acc : jsstring) : option (jsstring * jsstring) :=
  match s with
  | [] => None
  | c :: r =>
      if N.eqb c 34 then Some (rev acc, r)
      else if N.eqb c 92 then
        match r with
        | [] => None
        | e :: r1 =>
            if N.eqb e 117 then
              match r1 with
              | h1 :: r2 =>
                  match r2 with
                  | h2 :: r3 =>
                      match r3 with
                      | h3 :: r4 =>
                          match r4 with
                          | h4 :: r5 =>
                              match hex4 h1 h2 h3 h4 with
                              | Some u => scanString r5 (u :: acc)
                              | None => None
                              end
                          | [] => None
                          end
                      | [] => None
                      end
                  | [] => None
                  end
              | [] => None
              end
            else
              match unescape e with
              | Some u => scanString r1 (u :: acc)
              | None => None
              end
        end
      else if N.ltb c 32 then None
      else scanString r (c :: acc)
  end.

(** The parts of a number lexeme: an optional minus sign, an integer part
    without superfluous leading zero, an optional fraction, an optional
    exponent.  Each scanner returns what it read and what is left. *)
Definition scanMinus (s : jsstring) : jsstring * jsstring :=
  match s with
  | c :: r => if N.eqb c 45 then ([c], r) else ([], s)
  | [] => ([], s)
  end.

Definition scanInt (s : jsstring) : option (jsstring * jsstring) :=
  match s with
  | c :: r =>
      if N.eqb c 48 then Some ([c], r)
      else if between 49 57 c then
        let (ds, r') := spanDigits r in Some (c :: ds, r')
      else None
  | [] => None
  end.

Definition scanFraction (s : jsstring) : option (jsstring * jsstring) :=
  match s with
  | c :: r =>
      if N.eqb c 46 then
        let (fs, r') := spanDigits r in
        if isEmpty fs then None else Some (c :: fs, r')
      else Some ([], s)
  | [] => Some ([], s)
  end.

Definition scanSign (s : jsstring) : jsstring * jsstring :=
  match s with
  | c :: r => if N.eqb c 43 || N.eqb c 45 then ([c], r) else ([], s)
  | [] => ([], s)
  end.

Definition scanExponent (s : jsstring) : option (jsstring * jsstring) :=
  match s with
  | c :: r =>
      if N.eqb c 101 || N.eqb c 69 then
        let (sg, r1) := scanSign r in
        let (es, r2) := spanDigits r1 in
        if isEmpty es then None else Some (c :: sg ++ es, r2)
      else Some ([], s)
  | [] => Some ([], s)
  end.

Definition scanNumber (s : jsstring) : option (jsstring * jsstring) :=
  let (sign, s1) := scanMinus s in
  match scanInt s1 with
  | None => None
  | Some (ds, s2) =>
      match scanFraction s2 with
      | None => None
      | Some (fs, s3) =>
          match scanExponent s3 with
          | None => None
          | Some (es, s4) => Some (sign ++ ds ++ fs ++ es, s4)
          end
      end
  end.

Fixpoint parseValue (fuel : nat) (s : jsstring) : option (json * jsstring) :=
  match fuel with
  | O => None
  | S fuel' =>
      match skipSpace s with
      | [] => None
      | c :: r =>
          if N.eqb c 123 then
            match skipSpace r with
            | c' :: r' =>
                if N.eqb c' 125 then Some (JObject [], r')
                else parseMembers fuel' r []
            | [] => None
            end
          else if N.eqb c 91 then
            match skipSpace r with
            | c' :: r' =>
                if N.eqb c' 93 then Some (JArray [], r')
                else parseElements fuel' r []
            | [] => None
            end
          else if N.eqb c 34 then
            match scanString r [] with
            | Some (str, r') => Some (JString str, r')
            | None => None
            end
          else if startsWith (lit "true") (c :: r) then
            Some (JBool true, skipn 4 (c :: r))
          else if startsWith (lit "false") (c :: r) then
            Some (JBool false, skipn 5 (c :: r))
          else if startsWith (lit "null") (c :: r) then
            Some (JNull, skipn 4 (c :: r))
          else
            match scanNumber (c :: r) with
            | Some (lexeme, r') => Some (JNumber lexeme, r')
            | None => None
            end
      end
  end
with parseElements (fuel : nat) (s : jsstring) (acc : list json)
  : option (json * jsstring) :=
  match fuel with
  | O => None
  | S fuel' =>
      match parseValue fuel' s with
      | Some (v, r) =>
          match skipSpace r with
          | c :: r' =>
              if N.eqb c 44 then parseElements fuel' r' (v :: acc)
              else if N.eqb c 93 then Some (JArray (rev (v :: acc)), r')
              else None
          | [] => None
          end
      | None => None
      end
  end
with parseMembers (fuel : nat) (s : jsstring) (acc : list (jsstring * json))
  : option (json * jsstring) :=
  match fuel with
  | O => None
  | S fuel' =>
      match skipSpace s with
      | c :: r =>
          if N.eqb c 34 then
            match scanString r [] with
            | Some (key, r1) =>
                match skipSpace r1 with
                | c1 :: r2 =>
                    if N.eqb c1 58 then
                      match parseValue fuel' r2 with
                      | Some (v, r3) =>
                          match skipSpace r3 with
                          | c3 :: r4 =>
                              if N.eqb c3 44
                              then parseMembers fuel' r4 ((key, v) :: acc)
                              else if N.eqb c3 125
                              then Some (JObject (rev ((key, v) :: acc)), r4)
                              else None
                          | [] => None
                          end
                      | None => None
                      end
                    else None
                | [] => None
                end
            | None => None
            end
          else None
      | [] => None
      end
  end.

Definition parse (text : jsstring) : option json :=
  match parseValue (2 * List.length text + 2) text with
  | Some (v, r) => if isEmpty (skipSpace r) then Some v else None
  | None => None
  end.

Definition renderNumber (lexeme : jsstring) : jsstring :=
  match lexeme with
  | c :: ds =>
      if N.eqb c 45 && forallb (N.eqb 48) ds then lit "0" else lexeme
  | [] => lexeme
  end.

#[global] Instance engine : Engine := {|
  JSON_parse := parse;
  syntaxErrorMessage := fun _ => lit "Unexpected token in JSON";
  nullReadMessage := fun key =>
    lit "Cannot read properties of null (reading '" ++ key ++ lit "')";
  numberToString := renderNumber;
  syntaxError_unmarked := fun _ => eq_refl
|}.

(** The bytes of an ASCII text, apostrophes standing for double quotes. *)
Definition wire (s : string) : list byte :=
  map (fun b => if N.eqb (Byte.to_N b) 39 then x22 else b)
    (list_byte_of_string s).

(** A frame on the wire: the text and the blank-line delimiter. *)
Definition frame (s : string) : list byte := wire s ++ [x0a; x0a].

Definition key : jsstring := lit "sk-sample".

Definition okResponse : Response := {| status := 200; hasBody := true |}.

(** A session whose upstream request was accepted. *)
Definition serving : session :=
  run (connect (Some key)) [FetchResolved okResponse : event].

Definition hiFrame : string :=
  "data: {'type':'response.output_text.delta','delta':'Hi'}".

End Sample.

(** ** The page (lines 251-277)

    [buildPage] puts the requested content, or the default content, in the
    place of the first "{content}" of the template. *)

(** The replacement text of [String.prototype.replace] for a string
    pattern (GetSubstitution without captures): "$$" is a dollar sign, "$&"
    the matched text, "$`" the text before the match and "$'" the text
    after it; any other dollar sign stands for itself. *)
Fixpoint getSubstitution (matched before after replacement : jsstring)
  : jsstring :=
  match replacement with
  | [] => []
  | c :: r =>
      if N.eqb c 36 then
        match r with
        | d :: r' =>
            if N.eqb d 36 then
              36%N :: getSubstitution matched before after r'
            else if N.eqb d 38 then
              matched ++ getSubstitution matched before after r'
            else if N.eqb d 96 then
              before ++ getSubstitution matched before after r'
            else if N.eqb d 39 then
              after ++ getSubstitution matched before after r'
            else c :: getSubstitution matched before after r
        | [] => [c]
        end
      else c :: getSubstitution matched before after r
  end.

(** [str.replace(searchString, replaceValue)] with two strings: the
    leftmost occurrence only. *)
Definition replace (str searchString replaceValue : jsstring) : jsstring :=
  match indexOf searchString str with
  | None => str
  | Some position =>
      let before := firstn position str in
      let after := skipn (position + List.length searchString) str in
      before ++ getSubstitution searchString before after replaceValue
      ++ after
  end.

(** A value of [req.query]: absent, a string, an array of strings and
    nested objects, or a nested object. *)
Inductive queryItem :=
| ItemString (s : jsstring)
| ItemObject.

Inductive queryValue :=
| QueryUndefined
| QueryString (s : jsstring)
| QueryArray (items : list queryItem)
| QueryObject.

Definition itemToString (item : queryItem) : jsstring :=
  match item with
  | ItemString s => s
  | ItemObject => lit "[object Object]"
  end.

Definition placeholder : jsstring := lit "{content}".

Section Page.

(** The constant of lines 34-104. *)
Variable DEFAULT_CONTENT : jsstring.

(** [buildPage] (lines 251-271); [template] is what [fs.readFileSync]
    returns, [None] when it throws. *)
Definition buildPage (template : option jsstring)
  (requestedContent : queryValue) : jsstring :=
  match template with
  | None => lit "<h1>Internal Server Error</h1>"
  | Some template =>
      let content :=
        match requestedContent with
        | QueryArray items => Some (join (lit " ") (map itemToString items))
        | QueryString s => Some s
        | _ => None
        end in
      replace template placeholder
        match content with
        | Some (c :: r) => c :: r
        | _ => DEFAULT_CONTENT
        end
  end.

End Page.

(** ** The port (lines 13-15) *)

(** The Numbers [Number.parseInt] can return here: NaN, an integer given by
    its sign and magnitude (so that -0 is told from 0) when the magnitude is
    at most 2^53, and beyond that some double that is not tracked. *)
Inductive number :=
| NaN
| Integer (negative : bool) (magnitude : N)
| Inexact.

Definition isDecimalDigit (c : N) : bool := between 48 57 c.

Fixpoint takeDigits (s : jsstring) : jsstring :=
  match s with
  | c :: r => if isDecimalDigit c then c :: takeDigits r else []
  | [] => []
  end.

Definition digit (c : N) (d : Decimal.uint) : Decimal.uint :=
  if N.eqb c 48 then Decimal.D0 d
  else if N.eqb c 49 then Decimal.D1 d
  else if N.eqb c 50 then Decimal.D2 d
  else if N.eqb c 51 then Decimal.D3 d
  else if N.eqb c 52 then Decimal.D4 d
  else if N.eqb c 53 then Decimal.D5 d
  else if N.eqb c 54 then Decimal.D6 d
  else if N.eqb c 55 then Decimal.D7 d
  else if N.eqb c 56 then Decimal.D8 d
  else Decimal.D9 d.

Fixpoint digits_uint (ds : jsstring) : Decimal.uint :=
  match ds with
  | [] => Decimal.Nil
  | c :: r => digit c (digits_uint r)
  end.

(** The sign [parseInt] reads and what follows it. *)
Definition readSign (s : jsstring) : bool * jsstring :=
  match s with
  | c :: r =>
      if N.eqb c 45 then (true, r)
      else if N.eqb c 43 then (false, r)
      else (false, s)
  | [] => (false, s)
  end.

(** [Number.parseInt(string, 10)]. *)
Definition parseInt (string : jsstring) : number :=
  let (negative, s) := readSign (trimStart string) in
  match takeDigits s with
  | [] => NaN
  | ds =>
      let n := N.of_uint (digits_uint ds) in
      if N.leb n 9007199254740992 then Integer negative n else Inexact
  end.

(** [PORT] (lines 13-15), from [process.env.PORT]. *)
Definition PORT (env : option jsstring) : number :=
  let rawPort := match env with Some v => v | None => lit "3000" end in
  match parseInt rawPort with
  | NaN => Integer false 3000
  | parsedPort => parsedPort
  end.

(** ** The page's script (lines 41-102) *)

(** [escapeHtml] (lines 54-60). *)
Definition escapeCharacter (c : N) : jsstring :=
  if N.eqb c 38 then lit "&amp;"
  else if N.eqb c 60 then lit "&lt;"
  else if N.eqb c 62 then lit "&gt;"
  else if N.eqb c 34 then lit "&quot;"
  else if N.eqb c 39 then lit "&#39;"
  else [c].

Definition escapeHtml (value : jsstring) : jsstring :=
  flat_map escapeCharacter value.

(** What the script keeps and shows: its [buffer], the text of the status
    paragraph, the markup of the content element, and whether it has called
    [socket.close()]. *)
Record display := {
  received : jsstring;
  statusText : jsstring;
  innerHTML : jsstring;
  closeCalled : bool
}.

Definition errorOpen : jsstring :=
  jlit "<pre style='white-space: pre-wrap; background: #f5f5f5; padding: 1rem; border-radius: 0.5rem;'>".

Definition errorClose : jsstring := lit "</pre>".

Section Script.

Context {E : Engine}.

(** The 'message' listener (lines 66-90); every exception is caught and
    logged. *)
Definition onMessage (d : display) (data : jsstring) : display :=
  match JSON_parse data with
  | None => d
  | Some payload =>
      match getProp payload (lit "type") with
      | Exn _ => d
      | Val type =>
          match getProp payload (lit "data"),
                getProp payload (lit "message") with
          | Val chunk, Val text =>
              if strictEq type (lit "chunk") && typeofString chunk then
                {| received := received d ++ stringValue chunk;
                   statusText := lit "Adding sections&hellip;";
                   innerHTML := received d ++ stringValue chunk;
                   closeCalled := closeCalled d |}
              else if strictEq type (lit "done") then
                {| received := received d;
                   statusText :=
                     lit "James Paterson's personal website is ready.";
                   innerHTML := innerHTML d;
                   closeCalled := true |}
              else if strictEq type (lit "error") && typeofString text then
                {| received := received d;
                   statusText := lit "Unable to build the website.";
                   innerHTML :=
                     errorOpen ++ escapeHtml (stringValue text) ++ errorClose;
                   closeCalled := true |}
              else d
          | _, _ => d
          end
      end
  end.

(** ** The first relay (src/unnamed/part_001, lines 145-157)

    The [try] block of the first [processBuffer], whose [catch] clause
    throws every exception again. *)
Definition firstHandlePayload (payload : jsstring) : exc (option jsstring) :=
  match JSON_parse payload with
  | None => Exn (ErrorObject (lit "SyntaxError") (syntaxErrorMessage payload))
  | Some parsed =>
      type <- getProp parsed (lit "type") ;;
      delta <- getProp parsed (lit "delta") ;;
      if strictEq type (lit "response.output_text.delta") && typeofString delta
      then Val (Some (stringValue delta))
      else if strictEq type (lit "response.error") then
        error <- getProp parsed (lit "error") ;;
        message <- match error with
                   | None | Some JNull => Val None
                   | Some e => getProp e (lit "message")
                   end ;;
        Exn (ErrorObject (lit "Error")
               match message with
               | None | Some JNull => unknownError
               | Some m => toString m
               end)
      else Val None
  end.

End Script.

(** ** Vocabulary of the properties *)

(** What reaches the peer of messages handed to [sendPayload] while the
    socket is in state [r]. *)
Definition delivered (r : readyState) (msgs : list message) : list message :=
  match r with OPEN => msgs | _ => [] end.

(** At most one message, and not a chunk. *)
Definition terminal (t : list message) : Prop :=
  t = [] \/ t = [MDone] \/ exists text, t = [MError text].

(** A session still being served has sent chunks only. *)
Definition active (s : session) : Prop :=
  stream s <> None /\ exists texts, sent s = map MChunk texts.

(** A settled session has sent chunks and then at most one terminal
    message. *)
Definition finished (s : session) : Prop :=
  stream s = None /\
  exists texts t, sent s = map MChunk texts ++ t /\ terminal t.

(** The message the [catch] callback of the handler sends for [e]. *)
Definition rejection (e : thrown) : list message :=
  if isAbortError e then []
  else [MError match e with
               | ErrorObject _ text => text
               | OtherValue => lit "Unknown error while contacting OpenAPI."
               end].

(** The terminal message the handler sends for a resumption. *)
Definition closing (r : progress) : list message :=
  match r with
  | Suspended _ => []
  | Returned => [MDone]
  | Threw e => rejection e
  end.

Definition suspendedAt (r : progress) : option suspension :=
  match r with
  | Suspended point => Some point
  | _ => None
  end.

Definition startsWithWhiteSpace (text : jsstring) : bool :=
  match text with
  | c :: _ => isWhiteSpace c
  | [] => false
  end.

(** The payload extraction in the words of the specification (section 6):
    only lines beginning with the prefix "data:" carry payload, and the
    prefix and one following space are stripped. *)
Definition spec_stripData (line : jsstring) : jsstring :=
  match skipn 5 line with
  | c :: rest => if N.eqb c 32 then rest else c :: rest
  | [] => []
  end.

Definition spec_extractPayload (rawEvent : jsstring) : jsstring :=
  join [LF]
    (map spec_stripData
       (filter (startsWith dataPrefix) (split_lines rawEvent))).

(** Between two reads the buffer holds no complete frame. *)
Definition quiet (s : session) : Prop :=
  match stream s with
  | Some (AwaitRead buffer _) => indexOf delimiter buffer = None
  | _ => True
  end.

(** What a parser leaves is shorter than what it was given. *)
Definition consumes {A : Type} (p : jsstring -> option (A * jsstring)) : Prop :=
  forall s v r, p s = Some (v, r) -> List.length r < List.length s.

(** A frame as the upstream writes it: the payload on one "data: " line,
    then the blank line. *)
Definition sse (payload : jsstring) : jsstring :=
  lit "data: " ++ payload ++ delimiter.

(** A payload that fits on one line as it is: not empty, without line
    break, without white space at either end. *)
Definition plain (payload : jsstring) : Prop :=
  payload <> [] /\ ~ In LF payload /\
  trimStart payload = payload /\ trimEnd payload = payload.

(** The messages a session sends for the way [processBuffer] ended. *)
Definition ending (o : outcome) : list message :=
  match o with
  | Drained | Completed => [MDone]
  | Thrown e => if isAbortError e then [MDone] else rejection e
  end.

(** The characters that open or close markup or an attribute value. *)
Definition isMarkup (c : N) : bool :=
  N.eqb c 60 || N.eqb c 62 || N.eqb c 34 || N.eqb c 39.

(** A text that does not begin with a decimal digit. *)
Definition noLeadingDigit (s : jsstring) : bool :=
  match s with
  | c :: _ => negb (isDecimalDigit c)
  | [] => true
  end.

(** Reads of the given chunks, one after the other. *)
Definition reads (chunks : list (list byte)) : list event :=
  map (fun value => Upstream (ReadValue value)) chunks.

(** * Properties *)

(** ** Strings *)

Lemma jseqb_refl (a : jsstring) : jseqb a a = true.
Proof.
  induction a as [|x a IH]; simpl; [reflexivity|].
  now rewrite N.eqb_refl, IH.
Qed.

Lemma jseqb_eq (a b : jsstring) : jseqb a b = true <-> a = b.
Proof.
  split; [|intros ->; apply jseqb_refl].
  revert b; induction a as [|x a IH]; intros [|y b]; simpl;
    try discriminate; [reflexivity|].
  intros H; apply andb_true_iff in H as [Hxy Hab].
  apply N.eqb_eq in Hxy; subst; f_equal; auto.
Qed.

Lemma startsWith_length (p s : jsstring) :
  startsWith p s = true -> List.length p <= List.length s.
Proof.
  revert s; induction p as [|x p IH]; intros [|c s]; simpl;
    try discriminate; try lia.
  intros H; apply andb_true_iff in H as [_ H]; apply IH in H; lia.
Qed.

Lemma startsWith_app (p s m : jsstring) :
  startsWith p s = true -> startsWith p (s ++ m) = true.
Proof.
  revert s; induction p as [|x p IH]; intros [|c s]; simpl;
    try discriminate; try reflexivity.
  intros H; apply andb_true_iff in H as [Hx H].
  now rewrite Hx, (IH _ H).
Qed.

Lemma startsWith_app_inv (p s m : jsstring) :
  List.length p <= List.length s ->
  startsWith p (s ++ m) = startsWith p s.
Proof.
  revert s; induction p as [|x p IH]; intros [|c s]; simpl; intros Hlen;
    try reflexivity; try lia.
  rewrite IH by lia; reflexivity.
Qed.

Lemma startsWith_self (p r : jsstring) : startsWith p (p ++ r) = true.
Proof.
  induction p as [|x p IH]; simpl; [reflexivity|].
  now rewrite N.eqb_refl, IH.
Qed.

Lemma startsWith_split (p s : jsstring) :
  startsWith p s = true -> s = p ++ skipn (List.length p) s.
Proof.
  revert s; induction p as [|x p IH]; intros [|c s]; simpl;
    try discriminate; try reflexivity.
  intros H; apply andb_true_iff in H as [Hx H].
  apply N.eqb_eq in Hx; subst; f_equal; auto.
Qed.

Lemma indexOf_bound (needle s : jsstring) (i : nat) :
  indexOf needle s = Some i -> i + List.length needle <= List.length s.
Proof.
  revert i; induction s as [|c s IH]; intros i; simpl.
  - destruct (startsWith needle []) eqn:Hs; [|discriminate].
    intros [= <-]; apply startsWith_length in Hs; simpl in *; lia.
  - destruct (startsWith needle (c :: s)) eqn:Hs.
    + intros [= <-]; apply startsWith_length in Hs; simpl in *; lia.
    + destruct (indexOf needle s) as [j|]; simpl; [|discriminate].
      intros [= <-]; specialize (IH j eq_refl); lia.
Qed.

Lemma indexOf_app (needle s m : jsstring) (i : nat) :
  indexOf needle s = Some i -> indexOf needle (s ++ m) = Some i.
Proof.
  revert i; induction s as [|c s IH]; intros i H.
  - simpl in H; destruct (startsWith needle []) eqn:Hs; [|discriminate].
    injection H as <-.
    destruct needle; [|discriminate].
    destruct m; reflexivity.
  - pose proof (indexOf_bound _ _ _ H) as Hb.
    simpl in H; simpl.
    destruct (startsWith needle (c :: s)) eqn:Hs.
    + change (c :: s ++ m) with ((c :: s) ++ m).
      now rewrite (startsWith_app _ _ m Hs).
    + change (c :: s ++ m) with ((c :: s) ++ m).
      rewrite startsWith_app_inv, Hs by lia.
      destruct (indexOf needle s) as [j|]; simpl in *; [|discriminate].
      now rewrite (IH j eq_refl).
Qed.

Lemma indexOf_split (needle s : jsstring) (i : nat) :
  indexOf needle s = Some i ->
  s = firstn i s ++ needle ++ skipn (i + List.length needle) s.
Proof.
  revert i; induction s as [|c s IH]; intros i; simpl.
  - destruct (startsWith needle []) eqn:Hs; [|discriminate].
    intros [= <-]; destruct needle; [reflexivity|discriminate].
  - destruct (startsWith needle (c :: s)) eqn:Hs.
    + intros [= <-]; simpl; now apply startsWith_split.
    + destruct (indexOf needle s) as [j|]; simpl; [|discriminate].
      intros [= <-]; simpl; f_equal; auto.
Qed.

Lemma includes_app (x a b : jsstring) : includes x (a ++ x ++ b) = true.
Proof.
  unfold includes; induction a as [|c a IH]; simpl.
  - assert (H : startsWith x (x ++ b) = true) by apply startsWith_self.
    destruct (x ++ b); simpl in *; now rewrite H.
  - destruct (startsWith x (c :: a ++ x ++ b)); [reflexivity|].
    destruct (indexOf x (a ++ x ++ b)); [reflexivity|discriminate].
Qed.

Lemma dropWhile_app (p : N -> bool) (a b : jsstring) (c : N) :
  p c = false -> dropWhile p (a ++ c :: b) = dropWhile p a ++ c :: b.
Proof.
  intros Hc; induction a as [|x a IH]; simpl; [now rewrite Hc|].
  destruct (p x); auto.
Qed.

Lemma trimEnd_app (a b : jsstring) (c : N) :
  isWhiteSpace c = false -> trimEnd (a ++ c :: b) = a ++ c :: trimEnd b.
Proof.
  intros Hc; unfold trimEnd.
  rewrite rev_app_distr; simpl; rewrite <- app_assoc; simpl.
  rewrite dropWhile_app by assumption.
  rewrite rev_app_distr; simpl.
  now rewrite rev_involutive, <- app_assoc.
Qed.

Lemma trimStart_split (s : jsstring) :
  exists w, s = w ++ trimStart s /\ forallb isWhiteSpace w = true.
Proof.
  unfold trimStart; induction s as [|c s (w & Hs & Hw)]; simpl.
  - now exists [].
  - destruct (isWhiteSpace c) eqn:Hc.
    + exists (c :: w); simpl; rewrite Hc, Hw; split; [congruence|reflexivity].
    + now exists [].
Qed.

Lemma trimStart_head (s : jsstring) :
  match trimStart s with
  | [] => True
  | c :: _ => isWhiteSpace c = false
  end.
Proof.
  unfold trimStart; induction s as [|c s IH]; simpl; [exact I|].
  destruct (isWhiteSpace c) eqn:Hc; assumption.
Qed.

Lemma dropWhile_snoc (p : N -> bool) (s : jsstring) (c : N) :
  dropWhile p (s ++ [c]) =
  match dropWhile p s with
  | [] => dropWhile p [c]
  | r => r ++ [c]
  end.
Proof.
  induction s as [|x s IH]; [reflexivity|].
  cbn [app dropWhile]; destruct (p x); [exact IH|reflexivity].
Qed.

(** Trimming the end of a text with one more character in front. *)
Lemma trimEnd_cons (c : N) (s : jsstring) :
  trimEnd (c :: s) =
  if isEmpty (trimEnd s) then trimEnd [c] else c :: trimEnd s.
Proof.
  unfold trimEnd; cbn [rev]; rewrite dropWhile_snoc.
  destruct (dropWhile isWhiteSpace (rev s)) as [|x r]; [reflexivity|].
  rewrite rev_app_distr; cbn [rev app].
  destruct (rev r ++ [x]) eqn:Hr; [|reflexivity].
  now destruct (rev r).
Qed.

Lemma includes_nil (s : jsstring) : includes [] s = true.
Proof. now destruct s. Qed.

(** ** The decoder *)

Lemma decode_stream_app (d : TextDecoder) (a b : list byte) :
  decode_stream d (a ++ b) =
  let (d1, o1) := decode_stream d a in
  let (d2, o2) := decode_stream d1 b in
  (d2, o1 ++ o2).
Proof.
  revert d; induction a as [|x a IH]; intros d; simpl.
  - now destruct (decode_stream d b).
  - destruct (utf8_byte d (to_N x)) as [d1 o1].
    rewrite IH.
    destruct (decode_stream d1 a) as [d2 o2].
    destruct (decode_stream d2 b) as [d3 o3].
    now rewrite app_assoc.
Qed.

Lemma decode_end_cases (d : TextDecoder) :
  decode_end d = [] \/ decode_end d = [65533%N].
Proof.
  unfold decode_end, emit; destruct (N.eqb (bytes_needed d) 0); [now left|].
  right; simpl; now rewrite andb_false_r.
Qed.

Lemma startsWith_delimiter_snoc (s : jsstring) (c : N) :
  c <> LF -> startsWith delimiter s = false ->
  startsWith delimiter (s ++ [c]) = false.
Proof.
  intros Hc; destruct s as [|x [|y s]]; unfold delimiter;
    cbn [app startsWith]; intros H.
  - apply andb_false_r.
  - apply N.eqb_neq in Hc; rewrite N.eqb_sym in Hc.
    now rewrite Hc, andb_false_r.
  - exact H.
Qed.

Lemma indexOf_delimiter_snoc (s : jsstring) (c : N) :
  c <> LF -> indexOf delimiter s = None -> indexOf delimiter (s ++ [c]) = None.
Proof.
  intros Hc; induction s as [|x s IH]; intros H.
  - pose proof (startsWith_delimiter_snoc [] c Hc eq_refl) as Hs.
    cbn [app] in *; cbn [indexOf]; now rewrite Hs.
  - cbn [indexOf] in H.
    destruct (startsWith delimiter (x :: s)) eqn:Hs; [discriminate|].
    destruct (indexOf delimiter s) eqn:Hi; [discriminate|].
    change ((x :: s) ++ [c]) with (x :: (s ++ [c])).
    cbn [indexOf].
    change (x :: (s ++ [c])) with ((x :: s) ++ [c]).
    rewrite (startsWith_delimiter_snoc (x :: s) c Hc Hs).
    now rewrite IH.
Qed.

(** ** The frame loop *)

Section RelayFacts.

Context {E : Engine}.

Lemma delimiter_shortens (buffer : jsstring) (i : nat) :
  indexOf delimiter buffer = Some i ->
  i + 2 <= List.length buffer /\
  List.length (skipn (i + 2) buffer) < List.length buffer.
Proof.
  intros H; apply indexOf_bound in H; simpl in H.
  rewrite length_skipn; lia.
Qed.

(** Fuel beyond the length of the buffer does not change the result. *)
Lemma processBuffer_loop_stable (f1 f2 : nat) (buffer : jsstring) :
  List.length buffer < f1 -> List.length buffer < f2 ->
  processBuffer_loop f1 buffer = processBuffer_loop f2 buffer.
Proof.
  revert f2 buffer; induction f1 as [|f1 IH]; intros [|f2] buffer H1 H2;
    try lia.
  cbn [processBuffer_loop].
  destruct (indexOf delimiter buffer) as [i|] eqn:Hi; [|reflexivity].
  apply delimiter_shortens in Hi as [_ Hlt].
  rewrite (IH f2 (skipn (i + 2) buffer)) by lia.
  reflexivity.
Qed.

(** With fuel beyond the length of the buffer the loop ends. *)
Lemma processBuffer_loop_total (fuel : nat) (buffer : jsstring) :
  List.length buffer < fuel ->
  exists r, processBuffer_loop fuel buffer = Some r.
Proof.
  revert buffer; induction fuel as [|fuel IH]; intros buffer H; [lia|].
  cbn [processBuffer_loop].
  destruct (indexOf delimiter buffer) as [i|] eqn:Hi; [|eauto].
  apply delimiter_shortens in Hi as [_ Hlt].
  destruct (IH (skipn (i + 2) buffer)) as [[[texts o] b] Hr]; [lia|].
  rewrite Hr.
  destruct (isEmpty _); [eauto|].
  destruct (jseqb _ DONE); [eauto|].
  destruct (handlePayload _) as [[text|]|e]; eauto.
Qed.

Lemma processBuffer_loop_enough (fuel : nat) (buffer : jsstring) :
  List.length buffer < fuel ->
  processBuffer_loop fuel buffer = Some (processBuffer buffer).
Proof.
  intros H; unfold processBuffer.
  rewrite (processBuffer_loop_stable (S (List.length buffer)) fuel) by lia.
  destruct (processBuffer_loop_total fuel buffer H) as [r ->]; reflexivity.
Qed.

(** The loop of [processBuffer], one iteration unfolded. *)
Lemma processBuffer_unfold (buffer : jsstring) :
  processBuffer buffer =
  match indexOf delimiter buffer with
  | None => ([], Drained, buffer)
  | Some newlineIndex =>
      let rawEvent := firstn newlineIndex buffer in
      let buffer := skipn (newlineIndex + 2) buffer in
      let payload := extractPayload rawEvent in
      if isEmpty payload then processBuffer buffer
      else if jseqb payload DONE then ([], Completed, buffer)
      else
        match handlePayload payload with
        | Val (Some text) =>
            let '(texts, o, b) := processBuffer buffer in (text :: texts, o, b)
        | Val None => processBuffer buffer
        | Exn e => ([], Thrown e, buffer)
        end
  end.
Proof.
  unfold processBuffer at 1; cbn [processBuffer_loop].
  destruct (indexOf delimiter buffer) as [i|] eqn:Hi; [|reflexivity].
  apply delimiter_shortens in Hi as [_ Hlt].
  cbv zeta.
  rewrite (processBuffer_loop_enough (List.length buffer)) by lia.
  destruct (isEmpty _); [reflexivity|].
  destruct (jseqb _ DONE); [reflexivity|].
  destruct (handlePayload _) as [[text|]|e]; try reflexivity.
  now destruct (processBuffer (skipn (i + 2) buffer)) as [[texts o] b].
Qed.

(** A run that drains the buffer leaves no delimiter in it. *)
Lemma processBuffer_drained (buffer : jsstring) :
  forall texts rest,
    processBuffer buffer = (texts, Drained, rest) ->
    indexOf delimiter rest = None.
Proof.
  remember (List.length buffer) as n eqn:Hn.
  revert buffer Hn; induction n as [n IH] using lt_wf_ind.
  intros buffer Hn texts rest; rewrite processBuffer_unfold.
  destruct (indexOf delimiter buffer) as [i|] eqn:Hi.
  - apply delimiter_shortens in Hi as [_ Hlt]; cbv zeta.
    assert (Hrec : forall t r,
               processBuffer (skipn (i + 2) buffer) = (t, Drained, r) ->
               indexOf delimiter r = None)
      by (intros t r; apply (IH (List.length (skipn (i + 2) buffer)));
          [lia|reflexivity]).
    destruct (isEmpty _); [apply Hrec|].
    destruct (jseqb _ DONE); [discriminate|].
    destruct (handlePayload _) as [[text|]|e]; [|apply Hrec|discriminate].
    destruct (processBuffer (skipn (i + 2) buffer)) as [[t o] r].
    intros [= <- -> <-]; now apply (Hrec t).
  - now intros [= <- <-].
Qed.

(** Text that arrives later does not change what the loop does with the
    text it already has: running on [buffer ++ more] is running on [buffer]
    and, when that drains the buffer, going on with what is left followed
    by [more]. *)
Lemma processBuffer_app (buffer more : jsstring) :
  processBuffer (buffer ++ more) =
  let '(texts, o, rest) := processBuffer buffer in
  match o with
  | Drained =>
      let '(texts', o', rest') := processBuffer (rest ++ more) in
      (texts ++ texts', o', rest')
  | _ => (texts, o, rest ++ more)
  end.
Proof.
  remember (List.length buffer) as n eqn:Hn.
  revert buffer Hn; induction n as [n IH] using lt_wf_ind.
  intros buffer Hn.
  rewrite (processBuffer_unfold buffer).
  destruct (indexOf delimiter buffer) as [i|] eqn:Hi.
  - rewrite (processBuffer_unfold (buffer ++ more)).
    rewrite (indexOf_app _ _ more _ Hi).
    apply delimiter_shortens in Hi as [Hle Hlt]; cbv zeta.
    rewrite firstn_app, skipn_app.
    replace (i - List.length buffer) with 0 by lia.
    replace (i + 2 - List.length buffer) with 0 by lia.
    cbn [firstn skipn]; rewrite app_nil_r.
    pose proof (IH (List.length (skipn (i + 2) buffer)) ltac:(lia)
                  (skipn (i + 2) buffer) eq_refl) as Hrec.
    destruct (isEmpty _); [exact Hrec|].
    destruct (jseqb _ DONE); [reflexivity|].
    destruct (handlePayload _) as [[text|]|e];
      [|exact Hrec|reflexivity].
    rewrite Hrec.
    destruct (processBuffer (skipn (i + 2) buffer)) as [[t o] r].
    destruct o; try reflexivity.
    now destruct (processBuffer (r ++ more)) as [[t' o'] r'].
  - simpl. now destruct (processBuffer (buffer ++ more)) as [[t' o'] r'].
Qed.


(** ** Sending *)

Lemma delivered_app (r : readyState) (a b : list message) :
  delivered r (a ++ b) = delivered r a ++ delivered r b.
Proof. now destruct r. Qed.

Lemma sendPayload_eq (s : session) (m : message) :
  sendPayload s m =
  {| socket := socket s; stream := stream s;
     sent := sent s ++ delivered (socket s) [m] |}.
Proof.
  destruct s as [r st snt]; unfold sendPayload; destruct r; simpl;
    now rewrite ?app_nil_r.
Qed.

Lemma onChunks_eq (s : session) (texts : list jsstring) :
  onChunks s texts =
  {| socket := socket s; stream := stream s;
     sent := sent s ++ delivered (socket s) (map MChunk texts) |}.
Proof.
  unfold onChunks; revert s; induction texts as [|text texts IH]; intros s.
  - destruct s as [r st snt]; destruct r; simpl; now rewrite app_nil_r.
  - cbn [fold_left]; rewrite IH, sendPayload_eq; cbn [socket stream sent].
    f_equal; rewrite <- app_assoc; f_equal.
    now destruct (socket s).
Qed.

Lemma onFulfilled_eq (s : session) :
  onFulfilled s =
  {| socket := socket s; stream := None;
     sent := sent s ++ delivered (socket s) [MDone] |}.
Proof. unfold onFulfilled, settle; now rewrite sendPayload_eq. Qed.

Lemma onRejected_eq (s : session) (e : thrown) :
  onRejected s e =
  {| socket := socket s; stream := None;
     sent := sent s ++ delivered (socket s) (rejection e) |}.
Proof.
  unfold onRejected, rejection, settle; destruct (isAbortError e).
  - destruct (socket s); cbn [delivered]; now rewrite app_nil_r.
  - now rewrite sendPayload_eq.
Qed.

(** What the handler makes of one resumption of the stream function. *)
Lemma conclude_eq (s : session) (texts : list jsstring) (r : progress) :
  conclude s texts r =
  {| socket := socket s; stream := suspendedAt r;
     sent := sent s ++ delivered (socket s) (map MChunk texts ++ closing r) |}.
Proof.
  unfold conclude; rewrite delivered_app, app_assoc.
  destruct r; rewrite ?onFulfilled_eq, ?onRejected_eq, onChunks_eq;
    cbn [socket stream sent suspendedAt closing]; try reflexivity.
  destruct (socket s); cbn [delivered]; now rewrite !app_nil_r.
Qed.

Lemma terminal_closing (r : progress) : terminal (closing r).
Proof.
  destruct r; cbn [closing]; [now left|right; now left|].
  unfold rejection; destruct (isAbortError e); [now left|].
  right; right; eexists; reflexivity.
Qed.

Lemma terminal_delivered (r : readyState) (t : list message) :
  terminal t -> terminal (delivered r t).
Proof. destruct r; cbn [delivered]; auto; intros _; now left. Qed.

(** Nothing happens to a settled session but the socket closing. *)
Lemma step_settled (s : session) (ev : event) :
  stream s = None ->
  stream (step s ev) = None /\ sent (step s ev) = sent s.
Proof.
  destruct s as [r st snt]; cbn [stream]; intros ->.
  destruct ev; cbn; auto.
Qed.

Lemma run_settled (trace : list event) (s : session) :
  stream s = None ->
  stream (run s trace) = None /\ sent (run s trace) = sent s.
Proof.
  revert s; induction trace as [|ev trace IH]; intros s Hs; [now split|].
  destruct (step_settled s ev Hs) as [H1 H2].
  cbn [run fold_left]; destruct (IH (step s ev) H1) as [H3 H4].
  split; [exact H3|]. unfold run in H4; congruence.
Qed.

Lemma run_app (s : session) (t1 t2 : list event) :
  run s (t1 ++ t2) = run (run s t1) t2.
Proof. apply fold_left_app. Qed.

(** ** The shape of what a session sends *)

Lemma conclude_shape (s : session) (texts : list jsstring) (r : progress) :
  (exists sofar, sent s = map MChunk sofar) ->
  active (conclude s texts r) \/ finished (conclude s texts r).
Proof.
  intros [sofar Hs]; rewrite conclude_eq.
  unfold active, finished; cbn [stream sent]; rewrite Hs, delivered_app.
  assert (Hc : exists more,
             delivered (socket s) (map MChunk texts) = map MChunk more)
    by (destruct (socket s); cbn [delivered];
        [now exists texts|now exists []|now exists []]).
  destruct Hc as [more ->].
  rewrite app_assoc, <- map_app.
  pose proof (terminal_delivered (socket s) _ (terminal_closing r)) as Ht.
  destruct r; cbn [suspendedAt closing] in *.
  - left; split; [discriminate|].
    exists (sofar ++ more).
    destruct (socket s); cbn [delivered]; now rewrite app_nil_r.
  - right; split; [reflexivity|eauto].
  - right; split; [reflexivity|eauto].
Qed.

Lemma resume_shape (s : session) (p : settlement) :
  active s -> active (resume s p) \/ finished (resume s p).
Proof.
  intros Ha; pose proof Ha as [_ Hs]; unfold resume.
  destruct (stream s) as [point|]; [|now left].
  destruct (streamPersonalWebsite point p) as [[texts r]|]; [|now left].
  now apply conclude_shape.
Qed.

Lemma step_active (s : session) (ev : event) :
  active s -> active (step s ev) \/ finished (step s ev).
Proof.
  intros Ha; pose proof Ha as [Hst Hs].
  destruct ev; unfold step.
  - left; split; assumption.
  - cbn [stream]; destruct (stream s) as [point|] eqn:Hp; [|contradiction].
    apply resume_shape; split; cbn [stream sent]; [discriminate|exact Hs].
  - now apply resume_shape.
Qed.

Lemma step_finished (s : session) (ev : event) :
  finished s -> finished (step s ev).
Proof.
  intros [Hst Hs]; destruct (step_settled s ev Hst) as [H1 H2].
  split; [exact H1|now rewrite H2].
Qed.

Lemma connect_shape (apiKey : option jsstring) :
  active (connect apiKey) \/ finished (connect apiKey).
Proof. apply conclude_shape; now exists []. Qed.

Lemma run_shape (trace : list event) (s : session) :
  active s \/ finished s -> active (run s trace) \/ finished (run s trace).
Proof.
  revert s; induction trace as [|ev trace IH]; intros s Hs; [exact Hs|].
  apply IH; destruct Hs as [Ha|Hf];
    [now apply step_active|right; now apply step_finished].
Qed.

(** ** Between reads the buffer holds no complete frame *)

Lemma streamPersonalWebsite_quiet
  (point : suspension) (p : settlement) (texts : list jsstring)
  (buffer : jsstring) (decoder : TextDecoder) :
  streamPersonalWebsite point p
  = Some (texts, Suspended (AwaitRead buffer decoder)) ->
  indexOf delimiter buffer = None.
Proof.
  destruct point, p; cbn [streamPersonalWebsite]; try discriminate.
  - destruct (negb (ok response) || negb (hasBody response));
      [discriminate|now intros [= _ <- _]].
  - destruct (decode_stream decoder0 value) as [decoder' decoded].
    destruct (processBuffer (buffer0 ++ decoded)) as [[t o] b] eqn:Hp.
    destruct o; [|discriminate|unfold readCatch;
                               destruct (isAbortError e); discriminate].
    intros [= _ <- _]; now apply processBuffer_drained in Hp.
  - destruct (processBuffer (buffer0 ++ decode_end decoder0)) as [[t o] b].
    destruct o; try discriminate.
    unfold readCatch; destruct (isAbortError e); discriminate.
  - unfold readCatch; destruct (isAbortError e); discriminate.
Qed.

Lemma resume_quiet (s : session) (p : settlement) :
  quiet s -> quiet (resume s p).
Proof.
  intros Hq; unfold resume.
  destruct (stream s) as [point|] eqn:Hs; [|exact Hq].
  destruct (streamPersonalWebsite point p) as [[texts r]|] eqn:Hp;
    [|exact Hq].
  rewrite conclude_eq; unfold quiet; cbn [stream].
  destruct r as [[| |buffer decoder]| |]; cbn [suspendedAt]; try exact I.
  now apply streamPersonalWebsite_quiet in Hp.
Qed.

Lemma step_quiet (s : session) (ev : event) : quiet s -> quiet (step s ev).
Proof.
  intros Hq; destruct ev; unfold step.
  - exact Hq.
  - cbn [stream]; destruct (stream s) as [point|] eqn:Hs; [|exact I].
    apply resume_quiet; unfold quiet in *; cbn [stream]; now rewrite Hs in *.
  - now apply resume_quiet.
Qed.

Lemma connect_quiet (apiKey : option jsstring) : quiet (connect apiKey).
Proof.
  unfold connect; rewrite conclude_eq; unfold quiet; cbn [stream].
  now destruct apiKey as [[|c key]|].
Qed.

Lemma run_quiet (trace : list event) (s : session) :
  quiet s -> quiet (run s trace).
Proof.
  revert s; induction trace as [|ev trace IH]; intros s Hs; [exact Hs|].
  apply IH; now apply step_quiet.
Qed.

(** ** Reads *)

(** Two reads in a row are one read of the two chunks joined. *)
Lemma resume_ReadValue_app (s : session) (a b : list byte) :
  resume (resume s (ReadValue a)) (ReadValue b) = resume s (ReadValue (a ++ b)).
Proof.
  destruct s as [r st snt]; destruct st as [[| |buffer decoder]|];
    try reflexivity.
  unfold resume at 2 3; cbn [stream streamPersonalWebsite].
  rewrite decode_stream_app.
  destruct (decode_stream decoder a) as [d1 o1].
  destruct (decode_stream d1 b) as [d2 o2] eqn:Hd2.
  rewrite app_assoc, (processBuffer_app (buffer ++ o1) o2).
  destruct (processBuffer (buffer ++ o1)) as [[t1 out1] b1].
  destruct out1.
  - rewrite conclude_eq; unfold resume;
      cbn [stream suspendedAt streamPersonalWebsite socket sent closing].
    rewrite Hd2.
    destruct (processBuffer (b1 ++ o2)) as [[t2 out2] b2].
    rewrite !conclude_eq; cbn [socket stream sent].
    rewrite app_nil_r, map_app, <- !app_assoc, <- delivered_app.
    reflexivity.
  - rewrite !conclude_eq; unfold resume; cbn [stream suspendedAt].
    reflexivity.
  - rewrite !conclude_eq; unfold resume.
    replace (suspendedAt (readCatch e)) with (@None suspension)
      by (unfold readCatch; now destruct (isAbortError e)).
    reflexivity.
Qed.

Lemma resume_ReadValue_nil (s : session) :
  quiet s -> resume s (ReadValue []) = s.
Proof.
  unfold quiet; destruct s as [r st snt];
    destruct st as [[| |buffer decoder]|]; try reflexivity.
  unfold resume; cbn [stream streamPersonalWebsite decode_stream]; intros Hq.
  rewrite app_nil_r, processBuffer_unfold, Hq, conclude_eq.
  cbn [socket stream sent map suspendedAt closing app].
  now destruct r; cbn [delivered]; rewrite app_nil_r.
Qed.

Lemma run_reads (chunks : list (list byte)) (s : session) :
  quiet s ->
  run s (reads chunks) = resume s (ReadValue (List.concat chunks)).
Proof.
  revert s; induction chunks as [|c chunks IH]; intros s Hq.
  - cbn [reads map List.concat run fold_left].
    now rewrite resume_ReadValue_nil.
  - cbn [reads map List.concat run fold_left step].
    fold (reads chunks); fold (run (resume s (ReadValue c)) (reads chunks)).
    rewrite IH by now apply resume_quiet.
    apply resume_ReadValue_app.
Qed.

(** At end of stream the second call of [processBuffer] finds no frame:
    whatever text is still buffered is dropped and the stream function
    returns. *)
Lemma flush_is_silent (buffer : jsstring) (decoder : TextDecoder) :
  indexOf delimiter buffer = None ->
  streamPersonalWebsite (AwaitRead buffer decoder) ReadDone
  = Some ([], Returned).
Proof.
  intros Hq; cbn [streamPersonalWebsite].
  assert (Hn : indexOf delimiter (buffer ++ decode_end decoder) = None).
  { destruct (decode_end_cases decoder) as [-> | ->].
    - now rewrite app_nil_r.
    - apply indexOf_delimiter_snoc; [discriminate|assumption]. }
  now rewrite processBuffer_unfold, Hn.
Qed.

Lemma step_SocketClose (s : session) :
  stream (step s SocketClose) = None /\
  sent (step s SocketClose) = sent s.
Proof.
  destruct s as [r st snt]; destruct st as [[| |buffer decoder]|];
    unfold step, resume; cbn [stream aborted streamPersonalWebsite];
    rewrite ?conclude_eq; cbn [socket stream sent delivered];
    rewrite ?app_nil_r; now split.
Qed.

(** ** The relay session *)

(** C1.  For every session and every sequence of events delivered to it, in
    particular every sequence of upstream chunks, what the relay sends
    downstream is a run of chunk messages followed by at most one terminal
    message (done or error): at most one terminal message is produced and
    no chunk message is sent after it. *)
Theorem at_most_one_terminal_and_no_chunk_after
  (apiKey : option jsstring) (trace : list event) :
  exists texts t,
    sent (run (connect apiKey) trace) = map MChunk texts ++ t /\
    (t = [] \/ t = [MDone] \/ exists text, t = [MError text]).
Proof.
  destruct (run_shape trace (connect apiKey) (connect_shape apiKey))
    as [[_ [texts Hs]] | [_ (texts & t & Hs & Ht)]].
  - exists texts, []; rewrite app_nil_r; split; [exact Hs|now left].
  - exists texts, t; split; assumption.
Qed.

(** C2.  Splitting an upstream byte stream into chunks at arbitrary byte
    boundaries and feeding the chunks one read at a time leaves the session
    where feeding the whole stream as a single chunk leaves it, whatever
    came before and whatever comes after: the same messages in the same
    order. *)
Theorem reassembly_independence
  (apiKey : option jsstring) (before after : list event)
  (chunks : list (list byte)) :
  run (connect apiKey) (before ++ reads chunks ++ after) =
  run (connect apiKey)
    (before ++ Upstream (ReadValue (List.concat chunks)) :: after).
Proof.
  rewrite !run_app.
  rewrite run_reads by (apply run_quiet, connect_quiet).
  reflexivity.
Qed.

(** C3.  When a read brings the buffer to hold complete frames followed by a
    frame whose payload is "[DONE]", the session forwards the chunks of the
    frames before the sentinel, sends done, and is settled: whatever follows
    the sentinel in the buffer and whatever the upstream or the socket does
    later adds no message. *)
Theorem sentinel_halts_the_session
  (s : session) (buffer : jsstring) (decoder : TextDecoder)
  (value : list byte) (frames tail : jsstring) (i : nat)
  (texts : list jsstring) (later : list event) :
  stream s = Some (AwaitRead buffer decoder) ->
  socket s = OPEN ->
  buffer ++ snd (decode_stream decoder value) = frames ++ tail ->
  processBuffer frames = (texts, Drained, []) ->
  indexOf delimiter tail = Some i ->
  extractPayload (firstn i tail) = DONE ->
  sent (run s (Upstream (ReadValue value) :: later)) =
  sent s ++ map MChunk texts ++ [MDone].
Proof.
  intros Hst Hopen Hsplit Hframes Hi Hdone.
  destruct s as [r st snt]; cbn [stream socket sent] in *; subst.
  cbn [run fold_left step]; unfold resume;
    cbn [stream streamPersonalWebsite].
  destruct (decode_stream decoder value) as [d' decoded]; cbn [snd] in Hsplit.
  rewrite Hsplit, processBuffer_app, Hframes; cbn [app].
  rewrite (processBuffer_unfold tail), Hi; cbv zeta; rewrite Hdone.
  change (isEmpty DONE) with false; change (jseqb DONE DONE) with true.
  cbv iota; rewrite app_nil_r, conclude_eq.
  match goal with
  | |- sent (fold_left step later ?x) = _ =>
      destruct (run_settled later x eq_refl) as [_ Hrun];
      unfold run in Hrun; rewrite Hrun
  end.
  reflexivity.
Qed.

(** C5.  When the peer disconnects while the session is still being served
    (after some chunk messages and before any terminal message), the
    session is settled and nothing is sent from then on, whatever happens
    afterwards: no done and no error message. *)
Theorem cancellation_is_silent
  (apiKey : option jsstring) (before after : list event) :
  stream (run (connect apiKey) before) <> None ->
  (exists texts, sent (run (connect apiKey) before) = map MChunk texts) /\
  stream (run (connect apiKey) (before ++ SocketClose :: after)) = None /\
  sent (run (connect apiKey) (before ++ SocketClose :: after)) =
  sent (run (connect apiKey) before).
Proof.
  intros Hst.
  destruct (run_shape before (connect apiKey) (connect_shape apiKey))
    as [[_ Hs] | [Hf _]]; [|contradiction].
  split; [exact Hs|].
  rewrite run_app; cbn [run fold_left].
  destruct (step_SocketClose (fold_left step before (connect apiKey)))
    as [H1 H2].
  destruct (run_settled after _ H1) as [H3 H4].
  unfold run in *; split; [exact H3|congruence].
Qed.

(** End of stream without sentinel.  When the upstream reaches end of
    stream while the session is still reading (no sentinel was seen and
    nothing was thrown) and the socket is open, the stream function returns
    normally and the handler sends done and nothing else: a missing
    sentinel is not an error, and the text left in the buffer yields no
    chunk. *)
Theorem end_of_stream_sends_done
  (apiKey : option jsstring) (trace : list event)
  (buffer : jsstring) (decoder : TextDecoder) :
  stream (run (connect apiKey) trace) = Some (AwaitRead buffer decoder) ->
  socket (run (connect apiKey) trace) = OPEN ->
  stream (run (connect apiKey) (trace ++ [Upstream ReadDone])) = None /\
  sent (run (connect apiKey) (trace ++ [Upstream ReadDone])) =
  sent (run (connect apiKey) trace) ++ [MDone].
Proof.
  intros Hst Hopen; rewrite run_app; cbn [run fold_left step].
  fold (run (connect apiKey) trace).
  pose proof (run_quiet trace _ (connect_quiet apiKey)) as Hq.
  unfold quiet in Hq; rewrite Hst in Hq.
  unfold resume; rewrite Hst, (flush_is_silent _ decoder Hq), conclude_eq.
  cbn [stream sent suspendedAt closing map app]; rewrite Hopen.
  now split.
Qed.

Lemma requestFailed_text (code : N) (errorText : jsstring) :
  trim (requestFailedPrefix ++ decimal code ++ lit ": " ++ errorText) =
  requestFailedPrefix ++ decimal code
  ++ (if isEmpty (trimEnd errorText) then lit ":"
      else lit ": " ++ trimEnd errorText).
Proof.
  unfold trim.
  assert (HP : requestFailedPrefix = 79%N :: tl requestFailedPrefix)
    by reflexivity.
  rewrite HP at 1.
  unfold trimStart; cbn [app dropWhile].
  change (isWhiteSpace 79) with false; cbv iota.
  change (79%N :: tl requestFailedPrefix ++ decimal code ++ lit ": " ++ errorText)
    with (requestFailedPrefix ++ decimal code ++ 58%N :: 32%N :: errorText).
  rewrite app_assoc, trimEnd_app by reflexivity.
  rewrite <- app_assoc, trimEnd_cons.
  now destruct (isEmpty (trimEnd errorText)).
Qed.

(** C9.  When the initial upstream request resolves with a status outside
    200-299 or with a response without body, and the peer stays connected,
    exactly one message is sent, whatever happens afterwards, and the
    session is settled; the message is an error whose text is "OpenAPI
    request failed with status", the decimal status, a colon and the
    response text without its trailing white space.  It shows the status,
    and the response text as far as its last character that is not white
    space; no chunk is sent.  When the response text cannot be read the
    error shows the status alone. *)
Theorem failed_request_sends_one_error
  (key : jsstring) (response : Response) (errorText : jsstring)
  (later : list event) :
  key <> [] ->
  ok response = false \/ hasBody response = false ->
  let text := requestFailedPrefix ++ decimal (status response)
              ++ (if isEmpty (trimEnd errorText) then lit ":"
                  else lit ": " ++ trimEnd errorText) in
  let answered := run (connect (Some key))
                    (Upstream (FetchResolved response)
                     :: Upstream (TextResolved errorText) :: later) in
  let unread := run (connect (Some key))
                  (Upstream (FetchResolved response)
                   :: Upstream TextRejected :: later) in
  sent answered = [MError text] /\ stream answered = None /\
  includes (decimal (status response)) text = true /\
  includes (trimEnd errorText) text = true /\
  sent unread
  = [MError (requestFailedPrefix ++ decimal (status response) ++ lit ":")] /\
  stream unread = None.
Proof.
  intros Hkey Hfail text answered unread.
  destruct key as [|c key]; [contradiction|].
  assert (Hbad : negb (ok response) || negb (hasBody response) = true)
    by (destruct Hfail as [-> | ->]; [reflexivity|apply orb_true_r]).
  assert (Hafter : forall settlement message,
             streamPersonalWebsite (AwaitText (status response)) settlement
             = Some ([], Threw (ErrorObject (lit "Error") message)) ->
             let s := run (connect (Some (c :: key)))
                        (Upstream (FetchResolved response)
                         :: Upstream settlement :: later) in
             sent s = [MError message] /\ stream s = None).
  { intros settlement message Hs.
    unfold connect; cbn [streamPersonalWebsite_call run fold_left step].
    unfold resume; rewrite !conclude_eq;
      cbn [socket stream sent suspendedAt streamPersonalWebsite].
    rewrite Hbad, !conclude_eq;
      cbn [socket stream sent suspendedAt streamPersonalWebsite].
    cbn [streamPersonalWebsite] in Hs; rewrite Hs.
    rewrite !conclude_eq; cbn [socket stream sent delivered map app closing].
    unfold rejection; cbn [isAbortError suspendedAt].
    change (jseqb (lit "Error") (lit "AbortError")) with false; cbv iota.
    match goal with
    | |- sent (fold_left step later ?x) = _ /\ _ =>
        destruct (run_settled later x eq_refl) as [Hstream Hsent];
        unfold run in Hstream, Hsent; now rewrite Hstream, Hsent
    end. }
  destruct (Hafter (TextResolved errorText) text) as [H1 H2];
    [cbn [streamPersonalWebsite]; unfold requestFailed, text;
     now rewrite requestFailed_text|].
  destruct (Hafter TextRejected
              (requestFailedPrefix ++ decimal (status response) ++ lit ":"))
    as [H3 H4];
    [cbn [streamPersonalWebsite]; unfold requestFailed;
     now rewrite requestFailed_text|].
  refine (conj H1 (conj H2 (conj _ (conj _ (conj H3 H4))))).
  - unfold text; apply includes_app.
  - unfold text; destruct (trimEnd errorText) as [|x body] eqn:Hb;
      [apply includes_nil|cbn [isEmpty]].
    replace (requestFailedPrefix ++ decimal (status response)
             ++ lit ": " ++ x :: body)
      with ((requestFailedPrefix ++ decimal (status response) ++ lit ": ")
            ++ (x :: body) ++ [])
      by (now rewrite app_nil_r, <- !app_assoc).
    apply includes_app.
Qed.

(** ** Frames *)

Lemma stripData_spec (line : jsstring) :
  startsWith dataPrefix line = true ->
  exists ws,
    line = dataPrefix ++ ws ++ stripData line /\
    forallb isWhiteSpace ws = true /\
    startsWithWhiteSpace (stripData line) = false.
Proof.
  intros H; unfold stripData; rewrite H.
  apply startsWith_split in H.
  change (List.length dataPrefix) with 5 in H.
  destruct (trimStart_split (skipn 5 line)) as (ws & Hs & Hw).
  pose proof (trimStart_head (skipn 5 line)) as Hh.
  unfold trimStart in *; exists ws; repeat split.
  - now rewrite <- Hs.
  - exact Hw.
  - unfold startsWithWhiteSpace.
    now destruct (dropWhile isWhiteSpace (skipn 5 line)).
Qed.

Lemma extractPayload_lines (rawEvent : jsstring) :
  extractPayload rawEvent =
  join [LF]
    (map (fun line => stripData (trim line))
       (filter (fun line => startsWith dataPrefix (trim line))
          (split_lines rawEvent))).
Proof.
  unfold extractPayload; now rewrite filter_map_swap, map_map.
Qed.

Lemma empty_payload_skipped (buffer : jsstring) (i : nat) :
  indexOf delimiter buffer = Some i ->
  extractPayload (firstn i buffer) = [] ->
  processBuffer buffer = processBuffer (skipn (i + 2) buffer).
Proof.
  intros Hi He; rewrite (processBuffer_unfold buffer), Hi; cbv zeta.
  now rewrite He.
Qed.

(** C8, amended.  In a candidate frame the lines that contribute payload are
    those whose trimmed form begins with "data:" (white space before the
    prefix does not disqualify a line); from each the prefix and all the
    white space that follows it are stripped, and the white space around
    the line with it; the texts are rejoined with a line break; and a
    frame whose payload is empty produces no event: the loop goes on with
    the rest of the buffer. *)
Theorem payload_extraction (buffer : jsstring) (i : nat) :
  indexOf delimiter buffer = Some i ->
  (exists texts,
      extractPayload (firstn i buffer) = join [LF] texts /\
      Forall2
        (fun line text =>
           exists ws,
             trim line = dataPrefix ++ ws ++ text /\
             forallb isWhiteSpace ws = true /\
             startsWithWhiteSpace text = false)
        (filter (fun line => startsWith dataPrefix (trim line))
           (split_lines (firstn i buffer)))
        texts) /\
  (extractPayload (firstn i buffer) = [] ->
   processBuffer buffer = processBuffer (skipn (i + 2) buffer)).
Proof.
  intros Hi; split; [|now apply empty_payload_skipped].
  eexists; split; [apply extractPayload_lines|].
  induction (split_lines (firstn i buffer)) as [|line lines IH];
    cbn [filter map]; [constructor|].
  destruct (startsWith dataPrefix (trim line)) eqn:Hl; [|exact IH].
  cbn [map]; constructor; [|exact IH].
  now apply stripData_spec.
Qed.

(** C7, amended.  A frame whose payload [JSON.parse] rejects is skipped
    without ending the session, also when the payload is a damaged
    explicit-error frame: the loop goes on with the rest of the buffer, so
    that a later well-formed frame is classified and forwarded as if the
    undecodable frame had not been there. *)
Theorem undecodable_frame_is_skipped (buffer : jsstring) (i : nat) :
  indexOf delimiter buffer = Some i ->
  extractPayload (firstn i buffer) <> [] ->
  extractPayload (firstn i buffer) <> DONE ->
  JSON_parse (extractPayload (firstn i buffer)) = None ->
  handlePayload (extractPayload (firstn i buffer)) = Val None /\
  processBuffer buffer = processBuffer (skipn (i + 2) buffer).
Proof.
  intros Hi Hne Hnd Hp.
  assert (Hh : handlePayload (extractPayload (firstn i buffer)) = Val None).
  { unfold handlePayload, tryBlock; rewrite Hp.
    now rewrite syntaxError_unmarked. }
  split; [exact Hh|].
  rewrite (processBuffer_unfold buffer), Hi; cbv zeta; rewrite Hh.
  destruct (extractPayload (firstn i buffer)) as [|c payload] eqn:He;
    [contradiction|]; cbn [isEmpty].
  destruct (jseqb (c :: payload) DONE) eqn:Hd; [|reflexivity].
  now apply jseqb_eq in Hd.
Qed.

(** An explicit upstream error whose embedded message does not contain the
    phrase "OpenAPI service returned" is swallowed by the [catch] clause. *)
Lemma explicit_error_swallowed (payload text : jsstring) :
  JSON_parse payload =
  Some (JObject [(lit "type", JString (lit "response.error"));
                 (lit "error", JObject [(lit "message", JString text)])]) ->
  includes marker text = false ->
  tryBlock payload = Exn (ErrorObject (lit "Error") text) /\
  handlePayload payload = Val None.
Proof.
  intros Hp Hm.
  assert (Ht : tryBlock payload = Exn (ErrorObject (lit "Error") text))
    by (unfold tryBlock; rewrite Hp; reflexivity).
  split; [exact Ht|].
  unfold handlePayload; now rewrite Ht, Hm.
Qed.

End RelayFacts.

(** ** The sample parser *)

Section SampleParser.

Import Sample.

Lemma dropWhile_length (p : N -> bool) (s : jsstring) :
  List.length (dropWhile p s) <= List.length s.
Proof.
  induction s as [|c s IH]; simpl; [lia|].
  destruct (p c); simpl; lia.
Qed.

Lemma skipSpace_cons (s r : jsstring) (c : N) :
  skipSpace s = c :: r -> List.length r < List.length s.
Proof.
  intros H; pose proof (dropWhile_length isJsonSpace s) as Hl.
  unfold skipSpace in H; rewrite H in Hl; simpl in Hl; lia.
Qed.

Lemma spanDigits_length (s ds r : jsstring) :
  spanDigits s = (ds, r) -> List.length r <= List.length s.
Proof.
  revert ds r; induction s as [|c s IH]; intros ds r; simpl.
  - now intros [= <- <-].
  - destruct (isDigit c).
    + destruct (spanDigits s) as [ds' r']; intros [= <- <-].
      specialize (IH _ _ eq_refl); simpl; lia.
    + intros [= <- <-]; simpl; lia.
Qed.

Lemma scanString_length (s acc str r : jsstring) :
  scanString s acc = Some (str, r) -> List.length r < List.length s.
Proof.
  remember (List.length s) as n eqn:Hn.
  revert s acc Hn; induction n as [n IH] using lt_wf_ind; intros s acc Hn.
  destruct s as [|c s]; [discriminate|].
  cbn [scanString].
  destruct (N.eqb c 34); [intros [= <- <-]; simpl in *; lia|].
  destruct (N.eqb c 92).
  - destruct s as [|e r1]; [discriminate|].
    destruct (N.eqb e 117).
    + destruct r1 as [|h1 [|h2 [|h3 [|h4 r5]]]]; try discriminate.
      destruct (hex4 h1 h2 h3 h4); [|discriminate].
      intros H; eapply IH in H; [| |reflexivity]; simpl in *; lia.
    + destruct (unescape e); [|discriminate].
      intros H; eapply IH in H; [| |reflexivity]; simpl in *; lia.
  - destruct (N.ltb c 32); [discriminate|].
    intros H; eapply IH in H; [| |reflexivity]; simpl in *; lia.
Qed.

Lemma scanMinus_length (s sign r : jsstring) :
  scanMinus s = (sign, r) -> List.length r <= List.length s.
Proof.
  destruct s as [|c s]; simpl; [now intros [= <- <-]|].
  destruct (N.eqb c 45); intros [= <- <-]; simpl; lia.
Qed.

Lemma scanSign_length (s sign r : jsstring) :
  scanSign s = (sign, r) -> List.length r <= List.length s.
Proof.
  destruct s as [|c s]; simpl; [now intros [= <- <-]|].
  destruct (N.eqb c 43 || N.eqb c 45); intros [= <- <-]; simpl; lia.
Qed.

Lemma scanInt_length (s ds r : jsstring) :
  scanInt s = Some (ds, r) -> List.length r < List.length s.
Proof.
  destruct s as [|c s]; simpl; [discriminate|].
  destruct (N.eqb c 48); [intros [= <- <-]; lia|].
  destruct (between 49 57 c); [|discriminate].
  destruct (spanDigits s) as [ds' r'] eqn:Hd; intros [= <- <-].
  apply spanDigits_length in Hd; lia.
Qed.

Lemma scanFraction_length (s fs r : jsstring) :
  scanFraction s = Some (fs, r) -> List.length r <= List.length s.
Proof.
  destruct s as [|c s]; simpl; [now intros [= <- <-]|].
  destruct (N.eqb c 46); [|intros [= <- <-]; simpl; lia].
  destruct (spanDigits s) as [ds' r'] eqn:Hd.
  destruct (isEmpty ds'); [discriminate|]; intros [= <- <-].
  apply spanDigits_length in Hd; lia.
Qed.

Lemma scanExponent_length (s es r : jsstring) :
  scanExponent s = Some (es, r) -> List.length r <= List.length s.
Proof.
  destruct s as [|c s]; simpl; [now intros [= <- <-]|].
  destruct (N.eqb c 101 || N.eqb c 69); [|intros [= <- <-]; simpl; lia].
  destruct (scanSign s) as [sg r1] eqn:Hs.
  destruct (spanDigits r1) as [ds' r'] eqn:Hd.
  destruct (isEmpty ds'); [discriminate|]; intros [= <- <-].
  apply spanDigits_length in Hd; apply scanSign_length in Hs; lia.
Qed.

Lemma scanNumber_length (s lexeme r : jsstring) :
  scanNumber s = Some (lexeme, r) -> List.length r < List.length s.
Proof.
  unfold scanNumber.
  destruct (scanMinus s) as [sign s1] eqn:H1.
  destruct (scanInt s1) as [[ds s2]|] eqn:H2; [|discriminate].
  destruct (scanFraction s2) as [[fs s3]|] eqn:H3; [|discriminate].
  destruct (scanExponent s3) as [[es s4]|] eqn:H4; [|discriminate].
  intros [= <- <-].
  apply scanMinus_length in H1; apply scanInt_length in H2.
  apply scanFraction_length in H3; apply scanExponent_length in H4; lia.
Qed.

Ltac lengths :=
  repeat match goal with
    | H : skipSpace _ = _ :: _ |- _ => apply skipSpace_cons in H
    | H : scanString _ _ = Some _ |- _ => apply scanString_length in H
    | H : scanNumber _ = Some _ |- _ => apply scanNumber_length in H
    end.

Lemma parse_consumes (fuel : nat) :
  consumes (parseValue fuel) /\
  (forall acc, consumes (fun s => parseElements fuel s acc)) /\
  (forall acc, consumes (fun s => parseMembers fuel s acc)).
Proof.
  unfold consumes; induction fuel as [|fuel (IHv & IHe & IHm)];
    [repeat split; discriminate|].
  repeat split.
  - intros s v r; cbn [parseValue].
    destruct (skipSpace s) as [|c s1] eqn:Hs; [discriminate|].
    destruct (N.eqb c 123).
    { destruct (skipSpace s1) as [|c' s2] eqn:Hs1; [discriminate|].
      destruct (N.eqb c' 125); [intros [= <- <-]; lengths; lia|].
      intros H; apply IHm in H; lengths; lia. }
    destruct (N.eqb c 91).
    { destruct (skipSpace s1) as [|c' s2] eqn:Hs1; [discriminate|].
      destruct (N.eqb c' 93); [intros [= <- <-]; lengths; lia|].
      intros H; apply IHe in H; lengths; lia. }
    destruct (N.eqb c 34).
    { destruct (scanString s1 []) as [[str r']|] eqn:Hq; [|discriminate].
      intros [= <- <-]; lengths; lia. }
    destruct (startsWith (lit "true") (c :: s1)) eqn:Ht.
    { pose proof (length_skipn 4 (c :: s1)) as Hk.
      remember (skipn 4 (c :: s1)) as t; intros [= <- <-]; lengths.
      simpl in *; lia. }
    destruct (startsWith (lit "false") (c :: s1)) eqn:Hf.
    { pose proof (length_skipn 5 (c :: s1)) as Hk.
      remember (skipn 5 (c :: s1)) as t; intros [= <- <-]; lengths.
      simpl in *; lia. }
    destruct (startsWith (lit "null") (c :: s1)) eqn:Hn.
    { pose proof (length_skipn 4 (c :: s1)) as Hk.
      remember (skipn 4 (c :: s1)) as t; intros [= <- <-]; lengths.
      simpl in *; lia. }
    destruct (scanNumber (c :: s1)) as [[lexeme r']|] eqn:Hq; [|discriminate].
    intros [= <- <-]; lengths; simpl in *; lia.
  - intros acc s v r; cbn [parseElements].
    destruct (parseValue fuel s) as [[v1 r1]|] eqn:Hv; [|discriminate].
    apply IHv in Hv.
    destruct (skipSpace r1) as [|c r2] eqn:Hs; [discriminate|].
    destruct (N.eqb c 44); [intros H; apply IHe in H; lengths; lia|].
    destruct (N.eqb c 93); [|discriminate].
    intros [= <- <-]; lengths; lia.
  - intros acc s v r; cbn [parseMembers].
    destruct (skipSpace s) as [|c s1] eqn:Hs; [discriminate|].
    destruct (N.eqb c 34); [|discriminate].
    destruct (scanString s1 []) as [[k r1]|] eqn:Hq; [|discriminate].
    destruct (skipSpace r1) as [|c1 r2] eqn:Hs1; [discriminate|].
    destruct (N.eqb c1 58); [|discriminate].
    destruct (parseValue fuel r2) as [[v1 r3]|] eqn:Hv; [|discriminate].
    apply IHv in Hv.
    destruct (skipSpace r3) as [|c3 r4] eqn:Hs3; [discriminate|].
    destruct (N.eqb c3 44); [intros H; apply IHm in H; lengths; lia|].
    destruct (N.eqb c3 125); [|discriminate].
    intros [= <- <-]; lengths; lia.
Qed.

Lemma parseValue_S (fuel : nat) (s : jsstring) :
  parseValue (S fuel) s =
  match skipSpace s with
  | [] => None
  | c :: r =>
      if N.eqb c 123 then
        match skipSpace r with
        | c' :: r' =>
            if N.eqb c' 125 then Some (JObject [], r')
            else parseMembers fuel r []
        | [] => None
        end
      else if N.eqb c 91 then
        match skipSpace r with
        | c' :: r' =>
            if N.eqb c' 93 then Some (JArray [], r')
            else parseElements fuel r []
        | [] => None
        end
      else if N.eqb c 34 then
        match scanString r [] with
        | Some (str, r') => Some (JString str, r')
        | None => None
        end
      else if startsWith (lit "true") (c :: r) then
        Some (JBool true, skipn 4 (c :: r))
      else if startsWith (lit "false") (c :: r) then
        Some (JBool false, skipn 5 (c :: r))
      else if startsWith (lit "null") (c :: r) then
        Some (JNull, skipn 4 (c :: r))
      else
        match scanNumber (c :: r) with
        | Some (lexeme, r') => Some (JNumber lexeme, r')
        | None => None
        end
  end.
Proof. reflexivity. Qed.

Lemma parseElements_S (fuel : nat) (s : jsstring) (acc : list json) :
  parseElements (S fuel) s acc =
  match parseValue fuel s with
  | Some (v, r) =>
      match skipSpace r with
      | c :: r' =>
          if N.eqb c 44 then parseElements fuel r' (v :: acc)
          else if N.eqb c 93 then Some (JArray (rev (v :: acc)), r')
          else None
      | [] => None
      end
  | None => None
  end.
Proof. reflexivity. Qed.

Lemma parseMembers_S (fuel : nat) (s : jsstring)
  (acc : list (jsstring * json)) :
  parseMembers (S fuel) s acc =
  match skipSpace s with
  | c :: r =>
      if N.eqb c 34 then
        match scanString r [] with
        | Some (key, r1) =>
            match skipSpace r1 with
            | c1 :: r2 =>
                if N.eqb c1 58 then
                  match parseValue fuel r2 with
                  | Some (v, r3) =>
                      match skipSpace r3 with
                      | c3 :: r4 =>
                          if N.eqb c3 44
                          then parseMembers fuel r4 ((key, v) :: acc)
                          else if N.eqb c3 125
                          then Some (JObject (rev ((key, v) :: acc)), r4)
                          else None
                      | [] => None
                      end
                  | None => None
                  end
                else None
            | [] => None
            end
        | None => None
        end
      else None
  | [] => None
  end.
Proof. reflexivity. Qed.

(** One more unit of fuel changes nothing once the fuel exceeds twice the
    length of the text. *)
Lemma parse_stable (fuel : nat) :
  (forall s, 2 * List.length s + 1 <= fuel ->
             parseValue (S fuel) s = parseValue fuel s) /\
  (forall s acc, 2 * List.length s + 2 <= fuel ->
                 parseElements (S fuel) s acc = parseElements fuel s acc) /\
  (forall s acc, 2 * List.length s + 1 <= fuel ->
                 parseMembers (S fuel) s acc = parseMembers fuel s acc).
Proof.
  induction fuel as [|fuel (IHv & IHe & IHm)];
    [repeat split; intros; lia|].
  repeat split.
  - intros s Hf.
    rewrite (parseValue_S (S fuel)), (parseValue_S fuel).
    destruct (skipSpace s) as [|c s1] eqn:Hs; [reflexivity|].
    apply skipSpace_cons in Hs.
    rewrite (IHm s1 []), (IHe s1 []) by lia; reflexivity.
  - intros s acc Hf.
    rewrite (parseElements_S (S fuel)), (parseElements_S fuel).
    rewrite IHv by lia.
    destruct (parseValue fuel s) as [[v1 r1]|] eqn:Hv; [|reflexivity].
    apply (proj1 (parse_consumes fuel)) in Hv.
    destruct (skipSpace r1) as [|c r2] eqn:Hs; [reflexivity|].
    apply skipSpace_cons in Hs.
    rewrite (IHe r2) by lia; reflexivity.
  - intros s acc Hf.
    rewrite (parseMembers_S (S fuel)), (parseMembers_S fuel).
    destruct (skipSpace s) as [|c s1] eqn:Hs; [reflexivity|].
    apply skipSpace_cons in Hs.
    destruct (N.eqb c 34); [|reflexivity].
    destruct (scanString s1 []) as [[k r1]|] eqn:Hq; [|reflexivity].
    apply scanString_length in Hq.
    destruct (skipSpace r1) as [|c1 r2] eqn:Hs1; [reflexivity|].
    apply skipSpace_cons in Hs1.
    destruct (N.eqb c1 58); [|reflexivity].
    rewrite (IHv r2) by lia.
    destruct (parseValue fuel r2) as [[v1 r3]|] eqn:Hv; [|reflexivity].
    apply (proj1 (parse_consumes fuel)) in Hv.
    destruct (skipSpace r3) as [|c3 r4] eqn:Hs3; [reflexivity|].
    apply skipSpace_cons in Hs3.
    rewrite (IHm r4) by lia; reflexivity.
Qed.

(** [parse] does not depend on its fuel: any larger amount gives the same
    result, so [None] stands for a text that is not JSON. *)
Lemma parse_fuel (text : jsstring) (fuel : nat) :
  2 * List.length text + 2 <= fuel ->
  parseValue fuel text = parseValue (2 * List.length text + 2) text.
Proof.
  intros H; induction H as [|fuel H IH]; [reflexivity|].
  rewrite (proj1 (parse_stable fuel)) by lia; exact IH.
Qed.

End SampleParser.

(** ** The relay on concrete streams *)

(** C3, an instance: a delta frame and the sentinel arrive in one read,
    followed in the buffer by a further frame; more frames, the end of the
    stream and the closing of the socket follow. *)
Lemma sentinel_halts_the_session_witness :
  sent (run Sample.serving
          (Upstream
             (ReadValue (Sample.frame Sample.hiFrame
                         ++ Sample.frame "data: [DONE]"
                         ++ Sample.frame "data: {'text':'late'}"))
           :: [Upstream (ReadValue (Sample.frame "data: {'text':'later'}"));
               Upstream ReadDone; SocketClose])) =
  sent Sample.serving ++ map MChunk [lit "Hi"] ++ [MDone].
Proof.
  apply (sentinel_halts_the_session
           Sample.serving [] newTextDecoder _
           (jlit Sample.hiFrame ++ delimiter)
           (lit "data: [DONE]" ++ delimiter
            ++ jlit "data: {'text':'late'}" ++ delimiter)
           12 [lit "Hi"]);
    vm_compute; reflexivity.
Defined.

(** C5, an instance: the peer leaves after one chunk; the upstream goes on. *)
Lemma cancellation_is_silent_witness :
  (exists texts,
      sent (run (connect (Some Sample.key))
              [Upstream (FetchResolved Sample.okResponse);
               Upstream (ReadValue (Sample.frame Sample.hiFrame))]) =
      map MChunk texts) /\
  stream (run (connect (Some Sample.key))
            ([Upstream (FetchResolved Sample.okResponse);
              Upstream (ReadValue (Sample.frame Sample.hiFrame))]
             ++ SocketClose
             :: [Upstream (ReadValue (Sample.frame Sample.hiFrame));
                 Upstream ReadDone])) =
  None /\
  sent (run (connect (Some Sample.key))
          ([Upstream (FetchResolved Sample.okResponse);
            Upstream (ReadValue (Sample.frame Sample.hiFrame))]
           ++ SocketClose
           :: [Upstream (ReadValue (Sample.frame Sample.hiFrame));
               Upstream ReadDone])) =
  sent (run (connect (Some Sample.key))
          [Upstream (FetchResolved Sample.okResponse);
           Upstream (ReadValue (Sample.frame Sample.hiFrame))]).
Proof.
  apply (cancellation_is_silent (Some Sample.key)
           [Upstream (FetchResolved Sample.okResponse);
            Upstream (ReadValue (Sample.frame Sample.hiFrame))]
           [Upstream (ReadValue (Sample.frame Sample.hiFrame));
            Upstream ReadDone]).
  vm_compute; discriminate.
Defined.

(** End of stream without sentinel, an instance: one delta frame, then the
    end of the stream. *)
Lemma end_of_stream_sends_done_witness :
  stream (run (connect (Some Sample.key))
            ([Upstream (FetchResolved Sample.okResponse);
              Upstream (ReadValue (Sample.frame Sample.hiFrame))]
             ++ [Upstream ReadDone])) =
  None /\
  sent (run (connect (Some Sample.key))
          ([Upstream (FetchResolved Sample.okResponse);
            Upstream (ReadValue (Sample.frame Sample.hiFrame))]
           ++ [Upstream ReadDone])) =
  sent (run (connect (Some Sample.key))
          [Upstream (FetchResolved Sample.okResponse);
           Upstream (ReadValue (Sample.frame Sample.hiFrame))]) ++ [MDone].
Proof.
  eapply (end_of_stream_sends_done (Some Sample.key)
            [Upstream (FetchResolved Sample.okResponse);
             Upstream (ReadValue (Sample.frame Sample.hiFrame))]);
    vm_compute; reflexivity.
Defined.

(** C9, an instance: the scenario of the specification, status 429 with
    body "rate limited"; the upstream and the socket go on afterwards. *)
Lemma failed_request_sends_one_error_witness :
  sent (run (connect (Some Sample.key))
          (Upstream (FetchResolved {| status := 429; hasBody := true |})
           :: Upstream (TextResolved (lit "rate limited"))
           :: [Upstream (ReadValue (Sample.frame Sample.hiFrame));
               Upstream ReadDone; SocketClose])) =
  [MError (lit "OpenAPI request failed with status 429: rate limited")] /\
  stream (run (connect (Some Sample.key))
            (Upstream (FetchResolved {| status := 429; hasBody := true |})
             :: Upstream (TextResolved (lit "rate limited"))
             :: [Upstream (ReadValue (Sample.frame Sample.hiFrame));
                 Upstream ReadDone; SocketClose])) = None.
Proof.
  destruct (failed_request_sends_one_error
              Sample.key {| status := 429; hasBody := true |}
              (lit "rate limited")
              [Upstream (ReadValue (Sample.frame Sample.hiFrame));
               Upstream ReadDone; SocketClose])
    as (H1 & H2 & _).
  - discriminate.
  - left; reflexivity.
  - split; [exact H1|exact H2].
Defined.

(** C9 as stated fails: the message is trimmed, so a response text that
    ends in a line break is not embedded in it as it is; what the message
    holds is the text without its trailing white space. *)
Lemma response_text_is_embedded_trimmed :
  sent (run (connect (Some Sample.key))
          [Upstream (FetchResolved {| status := 429; hasBody := true |});
           Upstream (TextResolved (lit "rate limited" ++ [LF]))]) =
  [MError (lit "OpenAPI request failed with status 429: rate limited")] /\
  includes (lit "rate limited" ++ [LF])
    (lit "OpenAPI request failed with status 429: rate limited") = false /\
  includes (lit "rate limited")
    (lit "OpenAPI request failed with status 429: rate limited") = true.
Proof. vm_compute; repeat split. Qed.

(** C8, an instance: a comment line is a frame without payload. *)
Lemma payload_extraction_witness :
  processBuffer (lit ": keep-alive" ++ delimiter
                 ++ jlit Sample.hiFrame ++ delimiter) =
  processBuffer (skipn (12 + 2)
                   (lit ": keep-alive" ++ delimiter
                    ++ jlit Sample.hiFrame ++ delimiter)).
Proof.
  apply (payload_extraction
           (lit ": keep-alive" ++ delimiter
            ++ jlit Sample.hiFrame ++ delimiter) 12);
    vm_compute; reflexivity.
Defined.

(** C8 as stated fails: with two spaces after the prefix the code strips
    both where the claim strips one, and a line indented before the prefix
    contributes where under the claim it does not. *)
Lemma one_space_is_not_what_is_stripped :
  extractPayload (lit "data:  x") = lit "x" /\
  spec_extractPayload (lit "data:  x") = lit " x" /\
  extractPayload (lit "data:  x") <> spec_extractPayload (lit "data:  x") /\
  extractPayload (lit "  data: x") = lit "x" /\
  spec_extractPayload (lit "  data: x") = [] /\
  extractPayload (lit "  data: x") <> spec_extractPayload (lit "  data: x").
Proof. vm_compute; repeat split; discriminate. Qed.

(** C7, an instance: an undecodable frame, then a well-formed one. *)
Lemma undecodable_frame_is_skipped_witness :
  handlePayload (extractPayload
                   (firstn 13 (lit "data: {broken" ++ delimiter
                               ++ jlit "data: {'text':'ok'}" ++ delimiter))) =
  Val None /\
  processBuffer (lit "data: {broken" ++ delimiter
                 ++ jlit "data: {'text':'ok'}" ++ delimiter) =
  processBuffer (skipn (13 + 2)
                   (lit "data: {broken" ++ delimiter
                    ++ jlit "data: {'text':'ok'}" ++ delimiter)).
Proof.
  apply (undecodable_frame_is_skipped
           (lit "data: {broken" ++ delimiter
            ++ jlit "data: {'text':'ok'}" ++ delimiter) 13);
    vm_compute; try reflexivity; discriminate.
Defined.

(** C7 as stated fails: an explicit-error frame that lost its closing brace
    is undecodable, and it is skipped like any other undecodable frame; the
    session goes on, forwards the next frame and ends with done: no error
    message is sent. *)
Lemma damaged_error_frame_is_not_promoted :
  JSON_parse (jlit "{'type':'response.error','error':{'message':'boom'}")
  = None /\
  JSON_parse (jlit "{'type':'response.error','error':{'message':'boom'}}")
  = Some (JObject [(lit "type", JString (lit "response.error"));
                   (lit "error", JObject [(lit "message",
                                           JString (lit "boom"))])]) /\
  sent (run Sample.serving
          [Upstream
             (ReadValue
                (Sample.frame
                   "data: {'type':'response.error','error':{'message':'boom'}"));
           Upstream (ReadValue (Sample.frame "data: {'text':'ok'}"));
           Upstream ReadDone]) =
  [MChunk (lit "ok"); MDone] /\
  forall text,
    ~ In (MError text)
        (sent (run Sample.serving
                 [Upstream
                    (ReadValue
                       (Sample.frame
                          "data: {'type':'response.error','error':{'message':'boom'}"));
                  Upstream (ReadValue (Sample.frame "data: {'text':'ok'}"));
                  Upstream ReadDone])).
Proof.
  vm_compute; repeat split.
  intros text [H|[H|[]]]; discriminate.
Qed.

(** C4, at the failing input: an explicit upstream error that carries its
    own message does not end the session with an error; the frame is
    swallowed, later frames are forwarded and the session ends with done.
    An explicit error without message, which throws the default message,
    does end the session with that message. *)
Theorem explicit_error_with_message_is_swallowed :
  sent (run Sample.serving
          [Upstream
             (ReadValue
                (Sample.frame
                   "data: {'type':'response.error','error':{'message':'Rate limit exceeded'}}"));
           Upstream (ReadValue (Sample.frame "data: {'text':'more'}"));
           Upstream ReadDone]) =
  [MChunk (lit "more"); MDone] /\
  sent (run Sample.serving
          [Upstream (ReadValue (Sample.frame "data: {'type':'response.error'}"));
           Upstream (ReadValue (Sample.frame "data: {'text':'more'}"));
           Upstream ReadDone]) =
  [MError (lit "The OpenAPI service returned an unknown error.")].
Proof. vm_compute; split; reflexivity. Qed.

(** C6, at the failing input: a stream that ends without the blank line
    after its last frame loses that frame, although the same frame followed
    by the delimiter is forwarded. *)
Theorem trailing_frame_is_dropped :
  sent (run Sample.serving
          [Upstream (ReadValue (Sample.wire Sample.hiFrame));
           Upstream ReadDone]) = [MDone] /\
  sent (run Sample.serving
          [Upstream (ReadValue (Sample.frame Sample.hiFrame));
           Upstream ReadDone]) =
  [MChunk (lit "Hi"); MDone].
Proof. vm_compute; split; reflexivity. Qed.

(** C10, at the failing input: a stream that ends without sentinel, with
    one complete frame and then a frame that lacks its blank line.  The
    session completes normally, with done and without error, but the
    trailing frame is not flushed before done: its text, which is forwarded
    when the blank line is there, is lost. *)
Theorem end_of_stream_skips_the_trailing_frame :
  handlePayload (extractPayload (jlit "data: {'text':' there'}"))
  = Val (Some (lit " there")) /\
  sent (run (connect (Some Sample.key))
          [Upstream (FetchResolved Sample.okResponse);
           Upstream (ReadValue (Sample.frame Sample.hiFrame
                                ++ Sample.wire "data: {'text':' there'}"));
           Upstream ReadDone]) =
  [MChunk (lit "Hi"); MDone] /\
  sent (run (connect (Some Sample.key))
          [Upstream (FetchResolved Sample.okResponse);
           Upstream (ReadValue (Sample.frame Sample.hiFrame
                                ++ Sample.frame "data: {'text':' there'}"));
           Upstream ReadDone]) =
  [MChunk (lit "Hi"); MChunk (lit " there"); MDone].
Proof. vm_compute; repeat split. Qed.

(** * Further properties of the relay *)

Section RelayExtras.

Context {E : Engine}.

Lemma resume_closed (s : session) (p : settlement) :
  socket s <> OPEN ->
  socket (resume s p) = socket s /\ sent (resume s p) = sent s.
Proof.
  intros Hs; unfold resume.
  destruct (stream s) as [point|]; [|now split].
  destruct (streamPersonalWebsite point p) as [[texts r]|]; [|now split].
  rewrite conclude_eq; cbn [socket sent].
  destruct (socket s); [contradiction| |]; cbn [delivered];
    now rewrite app_nil_r.
Qed.

Lemma step_closed (s : session) (ev : event) :
  socket s <> OPEN ->
  socket (step s ev) <> OPEN /\ sent (step s ev) = sent s.
Proof.
  intros Hs; destruct ev; unfold step.
  - cbn [socket sent]; split; [|reflexivity].
    destruct (socket s); [contradiction|discriminate|discriminate].
  - cbn [stream]; destruct (stream s) as [point|];
      [|cbn [socket sent]; split; [discriminate|reflexivity]].
    match goal with
    | |- context [resume ?x ?p] =>
        destruct (resume_closed x p) as [H1 H2];
        [cbn [socket]; discriminate|]
    end.
    rewrite H1, H2; cbn [socket sent]; split; [discriminate|reflexivity].
  - destruct (resume_closed s p Hs) as [H1 H2].
    now rewrite H1, H2.
Qed.

(** Once the socket has left the OPEN state nothing more is sent, whatever
    the upstream delivers afterwards: [sendPayload] drops every message. *)
Theorem nothing_is_sent_unless_open (s : session) (trace : list event) :
  socket s <> OPEN -> sent (run s trace) = sent s.
Proof.
  revert s; induction trace as [|ev trace IH]; intros s Hs; [reflexivity|].
  destruct (step_closed s ev Hs) as [H1 H2].
  cbn [run fold_left]; fold (run (step s ev) trace).
  now rewrite IH.
Qed.

Lemma resume_grows (s : session) (p : settlement) :
  exists more, sent (resume s p) = sent s ++ more.
Proof.
  unfold resume.
  destruct (stream s) as [point|]; [|exists []; now rewrite app_nil_r].
  destruct (streamPersonalWebsite point p) as [[texts r]|];
    [|exists []; now rewrite app_nil_r].
  rewrite conclude_eq; cbn [sent]; eauto.
Qed.

(** What has been sent stays sent: every event only appends to the
    messages of the session, in the order they are produced. *)
Theorem sent_only_grows (s : session) (trace : list event) :
  exists more, sent (run s trace) = sent s ++ more.
Proof.
  revert s; induction trace as [|ev trace IH]; intros s.
  - exists []; now rewrite app_nil_r.
  - cbn [run fold_left]; fold (run (step s ev) trace).
    destruct (IH (step s ev)) as [more2 ->].
    assert (H : exists more, sent (step s ev) = sent s ++ more).
    { destruct ev; unfold step.
      - exists []; now rewrite app_nil_r.
      - cbn [stream]; destruct (stream s) as [point|];
          [|exists []; now rewrite app_nil_r].
        match goal with
        | |- context [resume ?x ?p] => destruct (resume_grows x p) as [m ->]
        end.
        now exists m.
      - apply resume_grows. }
    destruct H as [more1 ->]; exists (more1 ++ more2).
    now rewrite app_assoc.
Qed.

(** Without an API key (unset or empty) the session sends the
    configuration error and nothing else, and never awaits the upstream:
    whatever is delivered later changes nothing. *)
Theorem missing_key_is_reported
  (apiKey : option jsstring) (trace : list event) :
  apiKey = None \/ apiKey = Some [] ->
  stream (run (connect apiKey) trace) = None /\
  sent (run (connect apiKey) trace) =
  [MError (lit "OPENAPI_API_KEY is not configured. Please add it to your environment.")].
Proof.
  intros H.
  assert (Hc : connect apiKey =
               {| socket := OPEN; stream := None;
                  sent := [MError (lit "OPENAPI_API_KEY is not configured. Please add it to your environment.")] |})
    by (destruct H as [-> | ->]; reflexivity).
  rewrite Hc.
  match goal with
  | |- context [run ?x trace] => destruct (run_settled trace x eq_refl)
  end.
  now split.
Qed.

(** When [fetch] is rejected with anything but an AbortError the session
    sends one error message, the message of the error or a fixed text when
    the value thrown is not an Error, and is settled. *)
Theorem fetch_rejection_is_reported
  (key : jsstring) (e : thrown) (later : list event) :
  key <> [] ->
  isAbortError e = false ->
  sent (run (connect (Some key)) (Upstream (FetchRejected e) :: later)) =
  [MError match e with
          | ErrorObject _ text => text
          | OtherValue => lit "Unknown error while contacting OpenAPI."
          end].
Proof.
  intros Hkey He; destruct key as [|c key]; [contradiction|].
  cbn [run fold_left step]; unfold connect, resume.
  cbn [streamPersonalWebsite_call]; rewrite conclude_eq.
  cbn [socket stream sent suspendedAt streamPersonalWebsite].
  rewrite conclude_eq; cbn [socket stream sent suspendedAt closing].
  unfold rejection; rewrite He; cbn [delivered map app].
  match goal with
  | |- sent (fold_left step later ?x) = _ =>
      destruct (run_settled later x eq_refl) as [_ Hrun];
      unfold run in Hrun; now rewrite Hrun
  end.
Qed.

(** When a read is rejected with anything but an AbortError while the
    socket is open, the chunks sent so far are followed by one error
    message carrying the message of the error, and the session is
    settled. *)
Theorem read_failure_is_reported
  (s : session) (buffer : jsstring) (decoder : TextDecoder)
  (name text : jsstring) (later : list event) :
  stream s = Some (AwaitRead buffer decoder) ->
  socket s = OPEN ->
  jseqb name (lit "AbortError") = false ->
  sent (run s (Upstream (ReadRejected (ErrorObject name text)) :: later)) =
  sent s ++ [MError text].
Proof.
  intros Hst Hopen Hname.
  cbn [run fold_left step]; unfold resume; rewrite Hst.
  cbn [streamPersonalWebsite]; unfold readCatch; cbn [isAbortError].
  rewrite Hname, conclude_eq; cbn [suspendedAt closing map app].
  unfold rejection; cbn [isAbortError]; rewrite Hname, Hopen.
  cbn [delivered].
  match goal with
  | |- sent (fold_left step later ?x) = _ =>
      destruct (run_settled later x eq_refl) as [_ Hrun];
      unfold run in Hrun; now rewrite Hrun
  end.
Qed.

(** A frame at which [processBuffer] throws ends the session: the chunks of
    the frames before it are sent, then one error message with the message
    of the exception, and neither the rest of the buffer nor any later
    event adds a message. *)
Theorem throwing_frame_ends_the_session
  (s : session) (buffer : jsstring) (decoder : TextDecoder)
  (value : list byte) (frames tail : jsstring) (i : nat)
  (texts : list jsstring) (name text : jsstring) (later : list event) :
  stream s = Some (AwaitRead buffer decoder) ->
  socket s = OPEN ->
  buffer ++ snd (decode_stream decoder value) = frames ++ tail ->
  processBuffer frames = (texts, Drained, []) ->
  indexOf delimiter tail = Some i ->
  extractPayload (firstn i tail) <> [] ->
  extractPayload (firstn i tail) <> DONE ->
  handlePayload (extractPayload (firstn i tail))
  = Exn (ErrorObject name text) ->
  jseqb name (lit "AbortError") = false ->
  sent (run s (Upstream (ReadValue value) :: later)) =
  sent s ++ map MChunk texts ++ [MError text].
Proof.
  intros Hst Hopen Hsplit Hframes Hi Hne Hnd Hh Hname.
  destruct s as [r st snt]; cbn [stream socket sent] in *; subst.
  cbn [run fold_left step]; unfold resume;
    cbn [stream streamPersonalWebsite].
  destruct (decode_stream decoder value) as [d' decoded]; cbn [snd] in Hsplit.
  rewrite Hsplit, processBuffer_app, Hframes; cbn [app].
  rewrite (processBuffer_unfold tail), Hi; cbv zeta; rewrite Hh.
  destruct (extractPayload (firstn i tail)) as [|c payload] eqn:He;
    [contradiction|]; cbn [isEmpty].
  destruct (jseqb (c :: payload) DONE) eqn:Hd;
    [now apply jseqb_eq in Hd|].
  rewrite app_nil_r, conclude_eq.
  unfold readCatch; cbn [isAbortError]; rewrite Hname.
  cbn [suspendedAt closing]; unfold rejection; cbn [isAbortError].
  rewrite Hname; cbn [socket sent delivered].
  match goal with
  | |- sent (fold_left step later ?x) = _ =>
      destruct (run_settled later x eq_refl) as [_ Hrun];
      unfold run in Hrun; now rewrite Hrun
  end.
Qed.

End RelayExtras.

(** * Further properties of the frame loop *)

Section FrameExtras.

Context {E : Engine}.

(** The text [processBuffer] leaves in the buffer is the unread end of the
    text it was given: nothing is altered or reordered, and when the loop
    drains the buffer what is left holds no blank line. *)
Theorem processBuffer_keeps_the_unread_text (buffer : jsstring) :
  forall texts o rest,
    processBuffer buffer = (texts, o, rest) ->
    (exists consumed, buffer = consumed ++ rest) /\
    (o = Drained -> indexOf delimiter rest = None).
Proof.
  intros texts o rest H; split;
    [|intros ->; now apply processBuffer_drained in H].
  revert texts o rest H.
  remember (List.length buffer) as n eqn:Hn.
  revert buffer Hn; induction n as [n IH] using lt_wf_ind.
  intros buffer Hn texts o rest; rewrite processBuffer_unfold.
  destruct (indexOf delimiter buffer) as [i|] eqn:Hi;
    [|intros [= <- <- <-]; now exists []].
  pose proof (delimiter_shortens _ _ Hi) as [_ Hlt]; cbv zeta.
  assert (Hrec : forall t o' r,
             processBuffer (skipn (i + 2) buffer) = (t, o', r) ->
             exists consumed, buffer = consumed ++ r).
  { intros t o' r Hr.
    apply (IH (List.length (skipn (i + 2) buffer))) in Hr;
      [|lia|reflexivity].
    destruct Hr as [consumed Hc]; exists (firstn (i + 2) buffer ++ consumed).
    now rewrite <- app_assoc, <- Hc, firstn_skipn. }
  assert (Hhere : exists consumed,
             buffer = consumed ++ skipn (i + 2) buffer)
    by (exists (firstn (i + 2) buffer); now rewrite firstn_skipn).
  destruct (isEmpty _); [apply Hrec|].
  destruct (jseqb _ DONE); [now intros [= <- <- <-]|].
  destruct (handlePayload _) as [[text|]|e];
    [|apply Hrec|now intros [= <- <- <-]].
  destruct (processBuffer (skipn (i + 2) buffer)) as [[t o'] r] eqn:Hr.
  intros [= <- <- <-]; now apply (Hrec t o').
Qed.

Lemma indexOf_delimiter_after (a rest : jsstring) :
  ~ In LF a -> indexOf delimiter (a ++ delimiter ++ rest) = Some (List.length a).
Proof.
  induction a as [|x a IH]; intros Hin; [reflexivity|].
  assert (Hx : N.eqb LF x = false)
    by (apply N.eqb_neq; intros Heq; apply Hin; left; now symmetry).
  change ((x :: a) ++ delimiter ++ rest) with (x :: (a ++ delimiter ++ rest)).
  cbn [indexOf].
  replace (startsWith delimiter (x :: a ++ delimiter ++ rest)) with false
    by (unfold delimiter at 1; cbn [startsWith]; now rewrite Hx).
  rewrite IH by (intros H; apply Hin; now right).
  reflexivity.
Qed.

Lemma split_lines_single (s : jsstring) : ~ In LF s -> split_lines s = [s].
Proof.
  induction s as [|c s IH]; intros Hin; [reflexivity|].
  cbn [split_lines].
  replace (N.eqb c LF) with false
    by (symmetry; apply N.eqb_neq; intros ->; apply Hin; now left).
  now rewrite IH by (intros H; apply Hin; now right).
Qed.

Lemma trimEnd_prefix (pre s : jsstring) :
  s <> [] -> trimEnd s = s -> trimEnd (pre ++ s) = pre ++ s.
Proof.
  intros Hne Hs; induction pre as [|x pre IH]; [exact Hs|].
  cbn [app]; rewrite trimEnd_cons, IH.
  destruct (pre ++ s) eqn:Hp; [|reflexivity].
  now destruct pre, s.
Qed.

Lemma extractPayload_data_line (payload : jsstring) :
  plain payload -> extractPayload (lit "data: " ++ payload) = payload.
Proof.
  intros (Hne & Hlf & Hstart & Hend); unfold extractPayload.
  rewrite split_lines_single.
  - cbn [map]; unfold trim.
    replace (trimStart (lit "data: " ++ payload))
      with (lit "data: " ++ payload) by reflexivity.
    rewrite trimEnd_prefix by assumption.
    replace (startsWith dataPrefix (lit "data: " ++ payload)) with true
      by reflexivity.
    cbn [filter map join]; unfold stripData.
    replace (startsWith dataPrefix (lit "data: " ++ payload)) with true
      by reflexivity.
    change (skipn 5 (lit "data: " ++ payload)) with (32%N :: payload).
    exact Hstart.
  - intros Hin; apply in_app_or in Hin as [Hin|Hin]; [|contradiction].
    vm_compute in Hin; intuition discriminate.
Qed.

Lemma sse_first (payload rest : jsstring) :
  plain payload ->
  indexOf delimiter (sse payload ++ rest)
  = Some (List.length (lit "data: " ++ payload)) /\
  firstn (List.length (lit "data: " ++ payload)) (sse payload ++ rest)
  = lit "data: " ++ payload /\
  skipn (List.length (lit "data: " ++ payload) + 2) (sse payload ++ rest)
  = rest.
Proof.
  intros (Hne & Hlf & _).
  assert (Heq : sse payload ++ rest
                = (lit "data: " ++ payload) ++ delimiter ++ rest)
    by (unfold sse; now rewrite <- !app_assoc).
  rewrite Heq; repeat split.
  - apply indexOf_delimiter_after.
    intros Hin; apply in_app_or in Hin as [Hin|Hin]; [|contradiction].
    vm_compute in Hin; intuition discriminate.
  - now rewrite firstn_app, firstn_all, Nat.sub_diag, app_nil_r.
  - rewrite skipn_app, skipn_all2 by lia.
    replace (List.length (lit "data: " ++ payload) + 2
             - List.length (lit "data: " ++ payload)) with 2 by lia.
    reflexivity.
Qed.

Lemma processBuffer_frames
  (payloads texts : list jsstring) (rest : jsstring) :
  Forall2 (fun payload text =>
             plain payload /\ payload <> DONE /\
             handlePayload payload = Val (Some text)) payloads texts ->
  processBuffer (List.concat (map sse payloads) ++ rest) =
  let '(more, o, unread) := processBuffer rest in (texts ++ more, o, unread).
Proof.
  induction 1 as [|payload text payloads texts (Hp & Hd & Hh) _ IH].
  - cbn [map List.concat app]; now destruct (processBuffer rest) as [[m o] l].
  - cbn [map List.concat]; rewrite <- app_assoc.
    destruct (sse_first payload (List.concat (map sse payloads) ++ rest) Hp)
      as (Hi & Hf & Hs).
    rewrite processBuffer_unfold, Hi; cbv zeta; rewrite Hf, Hs.
    rewrite (extractPayload_data_line _ Hp), Hh, IH.
    destruct Hp as (Hne & _).
    destruct payload as [|c payload]; [contradiction|]; cbn [isEmpty].
    destruct (jseqb (c :: payload) DONE) eqn:Hj;
      [now apply jseqb_eq in Hj|].
    now destruct (processBuffer rest) as [[m o] l].
Qed.

(** The frames of a buffer are handled in the order they arrive and their
    texts are handed on unchanged: when the buffer holds one-line frames
    that each carry a text, [processBuffer] calls [onChunk] with these
    texts in order and leaves nothing behind. *)
Theorem frames_are_forwarded_in_order (payloads texts : list jsstring) :
  Forall2 (fun payload text =>
             plain payload /\ payload <> DONE /\
             handlePayload payload = Val (Some text)) payloads texts ->
  processBuffer (List.concat (map sse payloads)) = (texts, Drained, []).
Proof.
  intros H; pose proof (processBuffer_frames payloads texts [] H) as Hp.
  rewrite !app_nil_r in Hp; rewrite Hp, processBuffer_unfold.
  cbn [indexOf delimiter startsWith]; now rewrite app_nil_r.
Qed.

(** What a session sends for an accepted request whose stream arrives in
    one read and then ends: the texts [processBuffer] finds in the decoded
    stream, then the terminal message of the way it ended. *)
Lemma served_stream
  (key : jsstring) (response : Response) (all : list byte) :
  key <> [] -> ok response = true -> hasBody response = true ->
  forall texts o rest,
    processBuffer (snd (decode_stream newTextDecoder all)) = (texts, o, rest) ->
    sent (run (connect (Some key))
            [Upstream (FetchResolved response); Upstream (ReadValue all);
             Upstream ReadDone]) =
    map MChunk texts ++ ending o.
Proof.
  intros Hkey Hok Hbody texts o rest Hp.
  destruct key as [|c key]; [contradiction|].
  cbn [run fold_left step]; unfold connect, resume.
  cbn [streamPersonalWebsite_call]; rewrite conclude_eq.
  cbn [socket stream sent suspendedAt streamPersonalWebsite].
  rewrite Hok, Hbody; cbn [negb orb].
  rewrite conclude_eq;
    cbn [socket stream sent suspendedAt streamPersonalWebsite closing].
  destruct (decode_stream newTextDecoder all) as [d' decoded].
  cbn [snd app] in *; rewrite Hp, conclude_eq; cbn [socket stream sent].
  destruct o; cbn [suspendedAt closing ending].
  - rewrite (flush_is_silent rest d') by now apply processBuffer_drained in Hp.
    rewrite conclude_eq; cbn [socket sent closing delivered map app].
    now rewrite !app_nil_r.
  - cbn [delivered app]; reflexivity.
  - unfold readCatch; destruct (isAbortError e);
      cbn [suspendedAt closing delivered app]; reflexivity.
Qed.

(** The messages of a whole session are those of [processBuffer] on the
    whole decoded stream: however the upstream bytes are cut into chunks,
    an accepted request whose stream ends sends the texts found in the
    decoded text, in order, and then done, or the error of the frame that
    threw. *)
Theorem session_is_the_loop_on_the_whole_text
  (key : jsstring) (response : Response) (chunks : list (list byte))
  (texts : list jsstring) (o : outcome) (rest : jsstring) :
  key <> [] -> ok response = true -> hasBody response = true ->
  processBuffer (snd (decode_stream newTextDecoder (List.concat chunks)))
  = (texts, o, rest) ->
  sent (run (connect (Some key))
          (Upstream (FetchResolved response)
           :: reads chunks ++ [Upstream ReadDone])) =
  map MChunk texts ++ ending o.
Proof.
  intros Hkey Hok Hbody Hp.
  change (Upstream (FetchResolved response) :: reads chunks ++ [Upstream ReadDone])
    with ([Upstream (FetchResolved response)] ++ reads chunks
          ++ [Upstream ReadDone]).
  rewrite !run_app.
  rewrite run_reads by (apply run_quiet, connect_quiet).
  rewrite <- (served_stream key response (List.concat chunks)
                Hkey Hok Hbody texts o rest Hp).
  reflexivity.
Qed.

(** A stream of one-line frames that each carry a text, cut into chunks
    anywhere, optionally closed by the sentinel frame and anything after
    it, is relayed as these texts in order followed by done. *)
Theorem stream_is_relayed_in_order
  (key : jsstring) (response : Response) (chunks : list (list byte))
  (payloads texts : list jsstring) (closing_text junk : jsstring) :
  key <> [] -> ok response = true -> hasBody response = true ->
  closing_text = [] \/ closing_text = sse DONE ++ junk ->
  snd (decode_stream newTextDecoder (List.concat chunks))
  = List.concat (map sse payloads) ++ closing_text ->
  Forall2 (fun payload text =>
             plain payload /\ payload <> DONE /\
             handlePayload payload = Val (Some text)) payloads texts ->
  sent (run (connect (Some key))
          (Upstream (FetchResolved response)
           :: reads chunks ++ [Upstream ReadDone])) =
  map MChunk texts ++ [MDone].
Proof.
  intros Hkey Hok Hbody Hclose Hdec Hall.
  pose proof (processBuffer_frames payloads texts closing_text Hall) as Hp.
  rewrite <- Hdec in Hp.
  change (Upstream (FetchResolved response) :: reads chunks ++ [Upstream ReadDone])
    with ([Upstream (FetchResolved response)] ++ reads chunks
          ++ [Upstream ReadDone]).
  rewrite !run_app.
  rewrite run_reads by (apply run_quiet, connect_quiet).
  destruct Hclose as [-> | ->].
  - rewrite (processBuffer_unfold []) in Hp.
    cbn [indexOf delimiter startsWith] in Hp; rewrite app_nil_r in Hp.
    exact (served_stream key response (List.concat chunks)
             Hkey Hok Hbody texts Drained [] Hp).
  - assert (Hplain : plain DONE)
      by (repeat split; try discriminate;
          vm_compute; intuition discriminate).
    destruct (sse_first DONE junk Hplain) as (Hi & Hf & Hs).
    rewrite (processBuffer_unfold (sse DONE ++ junk)), Hi in Hp.
    cbv zeta in Hp;
      rewrite Hf, Hs, (extractPayload_data_line _ Hplain) in Hp.
    change (isEmpty DONE) with false in Hp.
    change (jseqb DONE DONE) with true in Hp; cbv iota in Hp.
    rewrite app_nil_r in Hp.
    exact (served_stream key response (List.concat chunks)
             Hkey Hok Hbody texts Completed junk Hp).
Qed.

(** A stream whose decoded text holds no blank line, for instance one that
    separates its events with CR LF CR LF, yields no frame at all: the
    session sends done and nothing else. *)
Theorem stream_without_blank_line_yields_nothing
  (key : jsstring) (response : Response) (chunks : list (list byte)) :
  key <> [] -> ok response = true -> hasBody response = true ->
  indexOf delimiter (snd (decode_stream newTextDecoder (List.concat chunks)))
  = None ->
  sent (run (connect (Some key))
          (Upstream (FetchResolved response)
           :: reads chunks ++ [Upstream ReadDone])) = [MDone].
Proof.
  intros Hkey Hok Hbody Hn.
  change (Upstream (FetchResolved response) :: reads chunks ++ [Upstream ReadDone])
    with ([Upstream (FetchResolved response)] ++ reads chunks
          ++ [Upstream ReadDone]).
  rewrite !run_app.
  rewrite run_reads by (apply run_quiet, connect_quiet).
  apply (served_stream key response (List.concat chunks)
           Hkey Hok Hbody [] Drained
           (snd (decode_stream newTextDecoder (List.concat chunks)))).
  now rewrite processBuffer_unfold, Hn.
Qed.

End FrameExtras.

(** * Further properties of the classification *)

Section ClassifierExtras.

Context {E : Engine}.

(** A payload of type "response.output_text.delta" with a string delta
    yields that string, also when it is empty. *)
Lemma delta_is_forwarded
  (payload text : jsstring) (members : list (jsstring * json)) :
  JSON_parse payload = Some (JObject members) ->
  lookup (lit "type") members
  = Some (JString (lit "response.output_text.delta")) ->
  lookup (lit "delta") members = Some (JString text) ->
  handlePayload payload = Val (Some text).
Proof.
  intros Hp Ht Hd; unfold handlePayload, tryBlock.
  rewrite Hp; cbn [getProp bind]; rewrite Ht, Hd.
  cbn [strictEq typeofString stringValue]; now rewrite jseqb_refl.
Qed.

(** In the chat-completions shape the content of the first choice's delta
    is forwarded when it is a non-empty string; an empty content is
    dropped. *)
Theorem chat_completion_content_is_forwarded
  (payload text : jsstring)
  (members choice delta : list (jsstring * json)) (others : list json) :
  JSON_parse payload = Some (JObject members) ->
  strictEq (lookup (lit "type") members) (lit "response.output_text.delta")
  && typeofString (lookup (lit "delta") members) = false ->
  lookup (lit "choices") members = Some (JArray (JObject choice :: others)) ->
  lookup (lit "delta") choice = Some (JObject delta) ->
  lookup (lit "content") delta = Some (JString text) ->
  handlePayload payload = Val (if isEmpty text then None else Some text).
Proof.
  intros Hp Hb Hc Hd Ht; unfold handlePayload, tryBlock.
  rewrite Hp; cbn [getProp bind]; rewrite Hb, Hc; cbn [getProp bind].
  rewrite Hd; cbn [truthy getProp bind]; rewrite Ht.
  cbn [truthy typeofString stringValue].
  now destruct text.
Qed.

(** A payload that is not a "response.output_text.delta" with a string
    delta and has a non-empty choices array is judged by its first choice
    alone: when that choice is an object without delta nothing is forwarded
    and nothing is thrown, whatever content, text or error the payload
    carries beside it, and also when its type is "response.error". *)
Theorem choices_hide_the_other_fields
  (payload : jsstring)
  (members choice : list (jsstring * json)) (others : list json) :
  JSON_parse payload = Some (JObject members) ->
  strictEq (lookup (lit "type") members) (lit "response.output_text.delta")
  && typeofString (lookup (lit "delta") members) = false ->
  lookup (lit "choices") members = Some (JArray (JObject choice :: others)) ->
  lookup (lit "delta") choice = None ->
  handlePayload payload = Val None.
Proof.
  intros Hp Hb Hc Hd; unfold handlePayload, tryBlock.
  rewrite Hp; cbn [getProp bind]; rewrite Hb, Hc; cbn [getProp bind].
  now rewrite Hd.
Qed.

(** Without a delta and without choices, a string content is forwarded as
    it is, also when it is empty, and it is preferred to a string text;
    the text is forwarded when the content is not a string. *)
Theorem content_then_text_is_forwarded
  (payload : jsstring) (members : list (jsstring * json)) :
  JSON_parse payload = Some (JObject members) ->
  strictEq (lookup (lit "type") members) (lit "response.output_text.delta")
  && typeofString (lookup (lit "delta") members) = false ->
  lookup (lit "choices") members = None ->
  (forall content,
      lookup (lit "content") members = Some (JString content) ->
      handlePayload payload = Val (Some content)) /\
  (forall text,
      typeofString (lookup (lit "content") members) = false ->
      lookup (lit "text") members = Some (JString text) ->
      handlePayload payload = Val (Some text)).
Proof.
  intros Hp Hb Hc; split.
  - intros content Hn; unfold handlePayload, tryBlock.
    rewrite Hp; cbn [getProp bind]; rewrite Hb, Hc, Hn; reflexivity.
  - intros text Hn Ht; unfold handlePayload, tryBlock.
    rewrite Hp; cbn [getProp bind]; rewrite Hb, Hc, Hn, Ht; reflexivity.
Qed.

(** An explicit upstream error that carries no message, having no error
    field or an error object without message, throws the default error,
    which passes the [catch] clause. *)
Theorem bare_error_is_thrown
  (payload : jsstring) (members : list (jsstring * json)) :
  JSON_parse payload = Some (JObject members) ->
  lookup (lit "type") members = Some (JString (lit "response.error")) ->
  lookup (lit "choices") members = None ->
  typeofString (lookup (lit "content") members) = false ->
  typeofString (lookup (lit "text") members) = false ->
  lookup (lit "error") members = None \/
  (exists error,
      lookup (lit "error") members = Some (JObject error) /\
      lookup (lit "message") error = None) ->
  handlePayload payload = Exn (ErrorObject (lit "Error") unknownError).
Proof.
  intros Hp Ht Hc Hn Hx He; unfold handlePayload, tryBlock.
  rewrite Hp; cbn [getProp bind]; rewrite Ht, Hc, Hn, Hx.
  cbn [strictEq].
  change (jseqb (lit "response.error") (lit "response.output_text.delta"))
    with false.
  change (jseqb (lit "response.error") (lit "response.error")) with true.
  cbn [andb].
  destruct He as [-> | (error & -> & Hm)]; cbn [getProp bind];
    rewrite ?Hm; reflexivity.
Qed.

(** A payload that is valid JSON but not an object (null, a boolean, a
    number, a string or an array) is ignored: nothing is forwarded and the
    session goes on, provided the engine's message for reading "type" from
    null does not contain the phrase the [catch] clause looks for. *)
Theorem non_object_payload_is_ignored (payload : jsstring) (v : json) :
  JSON_parse payload = Some v ->
  (forall members, v <> JObject members) ->
  includes marker (nullReadMessage (lit "type")) = false ->
  handlePayload payload = Val None.
Proof.
  intros Hp Hv Hn; unfold handlePayload, tryBlock; rewrite Hp.
  destruct v; cbn [getProp bind strictEq andb]; try reflexivity.
  - now rewrite Hn.
  - now elim (Hv members).
Qed.

(** * Further properties of the payload extraction *)

Lemma split_lines_nonempty (s : jsstring) : split_lines s <> [].
Proof.
  induction s as [|c s IH]; cbn [split_lines]; [discriminate|].
  destruct (N.eqb c LF); [discriminate|].
  now destruct (split_lines s).
Qed.

Lemma split_lines_app (a b : jsstring) :
  split_lines (a ++ LF :: b) = split_lines a ++ split_lines b.
Proof.
  induction a as [|c a IH]; [reflexivity|].
  cbn [app split_lines]; rewrite IH.
  destruct (N.eqb c LF); [reflexivity|].
  pose proof (split_lines_nonempty a) as Hne.
  now destruct (split_lines a).
Qed.

Lemma split_lines_snoc (a : jsstring) (c : N) :
  c <> LF ->
  exists init final,
    split_lines a = init ++ [final] /\
    split_lines (a ++ [c]) = init ++ [final ++ [c]].
Proof.
  intros Hc; induction a as [|x a (init & final & H1 & H2)].
  - exists [], []; split; [reflexivity|].
    cbn [app split_lines].
    now replace (N.eqb c LF) with false by (symmetry; now apply N.eqb_neq).
  - cbn [app split_lines]; rewrite H1, H2.
    destruct (N.eqb x LF).
    + exists ([] :: init), final; now split.
    + destruct init as [|i init]; cbn [app].
      * exists [], (x :: final); now split.
      * exists ((x :: i) :: init), final; now split.
Qed.

Lemma trim_snoc (s : jsstring) (c : N) :
  isWhiteSpace c = true -> trim (s ++ [c]) = trim s.
Proof.
  intros Hc; unfold trim, trimStart.
  rewrite dropWhile_snoc.
  destruct (dropWhile isWhiteSpace s) as [|x r] eqn:Hd.
  - cbn [dropWhile]; now rewrite Hc.
  - unfold trimEnd; rewrite rev_app_distr; cbn [rev app dropWhile].
    now rewrite Hc.
Qed.

(** The lines of a raw event that contribute payload, after stripping. *)
Lemma extractPayload_app (a b : jsstring) :
  extractPayload (a ++ LF :: b) =
  join [LF]
    (map stripData (filter (startsWith dataPrefix) (map trim (split_lines a)))
     ++ map stripData
          (filter (startsWith dataPrefix) (map trim (split_lines b)))).
Proof.
  unfold extractPayload.
  now rewrite split_lines_app, map_app, filter_app, map_app.
Qed.

(** Lines that do not begin with "data:" once trimmed (comments, event and
    id fields, empty lines) contribute nothing to the payload wherever they
    stand in the raw event: before, between or after the data lines. *)
Theorem other_lines_are_ignored (a other b : jsstring) :
  forallb (fun line => negb (startsWith dataPrefix (trim line)))
    (split_lines other) = true ->
  extractPayload (a ++ LF :: other ++ LF :: b) = extractPayload (a ++ LF :: b)
  /\ extractPayload (other ++ LF :: b) = extractPayload b
  /\ extractPayload (a ++ LF :: other) = extractPayload a.
Proof.
  intros H.
  assert (Hn : filter (startsWith dataPrefix) (map trim (split_lines other))
               = []).
  { induction (split_lines other) as [|line lines IH]; [reflexivity|].
    cbn [forallb] in H; apply andb_true_iff in H as [Hl Hr].
    cbn [map filter]; apply negb_true_iff in Hl; rewrite Hl; auto. }
  repeat split.
  - rewrite (extractPayload_app a (other ++ LF :: b)), split_lines_app.
    rewrite map_app, filter_app, Hn; cbn [app].
    now rewrite <- extractPayload_app.
  - rewrite extractPayload_app, Hn; reflexivity.
  - rewrite extractPayload_app, Hn; cbn [map]; now rewrite app_nil_r.
Qed.

(** A carriage return at the end of a line is trimmed with the line: a raw
    event whose lines end in CR LF has the payload of the same event with
    bare LF. *)
Theorem carriage_returns_are_ignored (a b : jsstring) :
  extractPayload (a ++ 13%N :: LF :: b) = extractPayload (a ++ LF :: b) /\
  extractPayload (a ++ [13%N]) = extractPayload a.
Proof.
  assert (Ht : map trim (split_lines (a ++ [13%N])) = map trim (split_lines a)).
  { destruct (split_lines_snoc a 13%N) as (init & final & H1 & H2);
      [discriminate|].
    rewrite H1, H2, !map_app; cbn [map].
    now rewrite trim_snoc. }
  split.
  - replace (a ++ 13%N :: LF :: b) with ((a ++ [13%N]) ++ LF :: b)
      by now rewrite <- app_assoc.
    now rewrite !extractPayload_app, Ht.
  - unfold extractPayload; now rewrite Ht.
Qed.

End ClassifierExtras.

(** * Properties of the page's script *)

Lemma escapeCharacter_inj (x y : N) (a b : jsstring) :
  escapeCharacter x ++ a = escapeCharacter y ++ b -> x = y /\ a = b.
Proof.
  unfold escapeCharacter.
  destruct (N.eqb x 38) eqn:X1; [|destruct (N.eqb x 60) eqn:X2;
    [|destruct (N.eqb x 62) eqn:X3; [|destruct (N.eqb x 34) eqn:X4;
      [|destruct (N.eqb x 39) eqn:X5]]]];
  (destruct (N.eqb y 38) eqn:Y1; [|destruct (N.eqb y 60) eqn:Y2;
    [|destruct (N.eqb y 62) eqn:Y3; [|destruct (N.eqb y 34) eqn:Y4;
      [|destruct (N.eqb y 39) eqn:Y5]]]]);
  repeat match goal with
    | H : N.eqb _ _ = true |- _ => apply N.eqb_eq in H
    | H : N.eqb _ _ = false |- _ => apply N.eqb_neq in H
    end;
  simpl; intros H; inversion H; subst; try (split; congruence); congruence.
Qed.

(** [escapeHtml] loses nothing: two messages with the same escaped text are
    the same message. *)
Theorem escapeHtml_is_injective (a b : jsstring) :
  escapeHtml a = escapeHtml b -> a = b.
Proof.
  unfold escapeHtml; revert b; induction a as [|x a IH]; intros [|y b];
    cbn [flat_map]; intros H.
  - reflexivity.
  - exfalso; unfold escapeCharacter in H.
    repeat match type of H with
           | context [if ?c then _ else _] => destruct c
           end; discriminate H.
  - exfalso; unfold escapeCharacter in H.
    repeat match type of H with
           | context [if ?c then _ else _] => destruct c
           end; discriminate H.
  - apply escapeCharacter_inj in H as [-> H]; f_equal; auto.
Qed.

Lemma escapeCharacter_plain (c : N) :
  forallb (fun c => negb (isMarkup c)) (escapeCharacter c) = true.
Proof.
  unfold escapeCharacter, isMarkup.
  destruct (N.eqb c 38); [reflexivity|].
  destruct (N.eqb c 60) eqn:H1; [reflexivity|].
  destruct (N.eqb c 62) eqn:H2; [reflexivity|].
  destruct (N.eqb c 34) eqn:H3; [reflexivity|].
  destruct (N.eqb c 39) eqn:H4; [reflexivity|].
  cbn [forallb]; now rewrite H1, H2, H3, H4.
Qed.

(** The text [escapeHtml] returns holds no angle bracket and no quote, so
    that placed in markup it can neither open a tag nor close an attribute
    value. *)
Theorem escapeHtml_leaves_no_markup (value : jsstring) :
  forallb (fun c => negb (isMarkup c)) (escapeHtml value) = true.
Proof.
  unfold escapeHtml; induction value as [|c value IH]; [reflexivity|].
  cbn [flat_map]; rewrite forallb_app, IH, andb_true_r.
  apply escapeCharacter_plain.
Qed.

Section ScriptExtras.

Context {E : Engine}.

(** The page shows the chunks it has received, joined in order: after a
    run of chunk messages the buffer of the script, and the markup of the
    content element, is what it was followed by the data of the chunks. *)
Theorem chunks_build_the_page
  (d : display) (datas texts : list jsstring) :
  Forall2 (fun data text =>
             exists members,
               JSON_parse data = Some (JObject members) /\
               lookup (lit "type") members = Some (JString (lit "chunk")) /\
               lookup (lit "data") members = Some (JString text))
    datas texts ->
  received (fold_left onMessage datas d) = received d ++ List.concat texts /\
  closeCalled (fold_left onMessage datas d) = closeCalled d /\
  (datas <> [] ->
   innerHTML (fold_left onMessage datas d) = received d ++ List.concat texts).
Proof.
  intros H; revert d.
  induction H as [|data text datas texts (members & Hp & Ht & Hd) Hrest IH];
    intros d.
  - cbn [fold_left List.concat]; rewrite app_nil_r.
    repeat split; now intros [].
  - cbn [fold_left List.concat].
    assert (Hm : onMessage d data =
                 {| received := received d ++ text;
                    statusText := lit "Adding sections&hellip;";
                    innerHTML := received d ++ text;
                    closeCalled := closeCalled d |}).
    { unfold onMessage; rewrite Hp; cbn [getProp]; rewrite Ht, Hd.
      cbn [strictEq typeofString stringValue]; now rewrite jseqb_refl. }
    rewrite Hm; destruct (IH {| received := received d ++ text;
                               statusText := lit "Adding sections&hellip;";
                               innerHTML := received d ++ text;
                               closeCalled := closeCalled d |})
      as (H1 & H2 & H3).
    cbn [received closeCalled] in *; rewrite app_assoc.
    repeat split; [exact H1|exact H2|intros _].
    inversion Hrest; subst;
      [cbn [fold_left List.concat innerHTML]; now rewrite app_nil_r|].
    apply H3; discriminate.
Qed.

(** An error message is shown escaped: the content element becomes the
    fixed pre element around the escaped text of the message, in which no
    character of the message can act as markup, and the script closes the
    socket; the buffer is kept. *)
Theorem error_is_shown_escaped
  (d : display) (data text : jsstring) (members : list (jsstring * json)) :
  JSON_parse data = Some (JObject members) ->
  lookup (lit "type") members = Some (JString (lit "error")) ->
  lookup (lit "message") members = Some (JString text) ->
  innerHTML (onMessage d data) = errorOpen ++ escapeHtml text ++ errorClose /\
  forallb (fun c => negb (isMarkup c)) (escapeHtml text) = true /\
  closeCalled (onMessage d data) = true /\
  received (onMessage d data) = received d.
Proof.
  intros Hp Ht Hm; unfold onMessage; rewrite Hp; cbn [getProp].
  rewrite Ht, Hm; cbn [strictEq typeofString stringValue].
  change (jseqb (lit "error") (lit "chunk")) with false.
  change (jseqb (lit "error") (lit "done")) with false.
  change (jseqb (lit "error") (lit "error")) with true.
  cbn [andb innerHTML closeCalled received].
  repeat split; clear Hp Ht Hm.
  unfold escapeHtml; induction text as [|c text IH]; [reflexivity|].
  cbn [flat_map]; rewrite forallb_app, escapeCharacter_plain.
  apply IH.
Qed.

(** * Properties of the first relay *)

(** The first relay ended the session on every explicit upstream error,
    with the message the error carries, whatever that message is; the
    [catch] clause of the present relay lets it through only when it
    contains the phrase "OpenAPI service returned". *)
Theorem first_relay_reports_every_explicit_error
  (payload text : jsstring) (members error : list (jsstring * json)) :
  JSON_parse payload = Some (JObject members) ->
  lookup (lit "type") members = Some (JString (lit "response.error")) ->
  lookup (lit "error") members = Some (JObject error) ->
  lookup (lit "message") error = Some (JString text) ->
  firstHandlePayload payload = Exn (ErrorObject (lit "Error") text) /\
  (lookup (lit "choices") members = None ->
   typeofString (lookup (lit "content") members) = false ->
   typeofString (lookup (lit "text") members) = false ->
   handlePayload payload =
   if includes marker text then Exn (ErrorObject (lit "Error") text)
   else Val None).
Proof.
  intros Hp Ht He Hm; split.
  - unfold firstHandlePayload; rewrite Hp; cbn [getProp bind].
    rewrite Ht, He; cbn [strictEq getProp bind].
    change (jseqb (lit "response.error") (lit "response.output_text.delta"))
      with false.
    change (jseqb (lit "response.error") (lit "response.error")) with true.
    cbn [andb getProp bind]; now rewrite Hm.
  - intros Hc Hn Hx; unfold handlePayload, tryBlock.
    rewrite Hp; cbn [getProp bind]; rewrite Ht, Hc, Hn, Hx, He.
    cbn [strictEq getProp bind].
    change (jseqb (lit "response.error") (lit "response.output_text.delta"))
      with false.
    change (jseqb (lit "response.error") (lit "response.error")) with true.
    cbn [andb getProp bind]; rewrite Hm; cbn [toString].
    now destruct (includes marker text).
Qed.

(** The present relay forwards every text the first relay forwarded for a
    payload; and, for an engine whose messages for reading "type" and
    "delta" from null do not contain the phrase the [catch] clause looks
    for, it throws only where the first relay threw the same exception. *)
Theorem relay_extends_the_first_relay (payload : jsstring) :
  includes marker (nullReadMessage (lit "type")) = false ->
  includes marker (nullReadMessage (lit "delta")) = false ->
  (forall text,
      firstHandlePayload payload = Val (Some text) ->
      handlePayload payload = Val (Some text)) /\
  (forall e,
      handlePayload payload = Exn e -> firstHandlePayload payload = Exn e).
Proof.
  intros Hnull Hnull'; unfold handlePayload, tryBlock, firstHandlePayload.
  destruct (JSON_parse payload) as [parsed|];
    [|split; [discriminate|intros e; now rewrite syntaxError_unmarked]].
  destruct parsed as [|b|n|s|elements|members];
    cbn [getProp bind strictEq andb];
    try (split; discriminate).
  - split; [discriminate|]; intros e; now rewrite Hnull.
  - destruct (strictEq (lookup (lit "type") members)
                (lit "response.output_text.delta")
              && typeofString (lookup (lit "delta") members)) eqn:Hb;
      [split; [auto|discriminate]|].
    split.
    + destruct (strictEq (lookup (lit "type") members) (lit "response.error"));
        [|discriminate].
      destruct (lookup (lit "error") members) as [[]|];
        cbn [getProp bind]; discriminate.
    + intros e.
      destruct (lookup (lit "choices") members)
        as [[| | | |[|choice others]|]|]; cbn [getProp bind].
      all: try (destruct (typeofString (lookup (lit "content") members));
                [discriminate|];
                destruct (typeofString (lookup (lit "text") members));
                [discriminate|];
                destruct (strictEq (lookup (lit "type") members)
                            (lit "response.error")); [|discriminate];
                destruct (lookup (lit "error") members) as [[]|];
                cbn [getProp bind];
                match goal with
                | |- context [includes marker ?m] =>
                    destruct (includes marker m)
                end; (discriminate || auto)).
      destruct choice as [|b|n|s|elements|choice]; cbn [getProp bind];
        rewrite ?Hnull'; try discriminate.
      destruct (lookup (lit "delta") choice) as [d|]; [|discriminate].
      destruct d as [|b|n|s|elements|delta]; cbn [truthy getProp bind];
        try discriminate;
        repeat match goal with
               | |- context [if ?c then _ else _] => destruct c
               end; discriminate.
Qed.

End ScriptExtras.

(** * Properties of the page *)

Lemma getSubstitution_app (matched before after a r : jsstring) :
  ~ In 36%N a ->
  getSubstitution matched before after (a ++ r) =
  a ++ getSubstitution matched before after r.
Proof.
  induction a as [|c a IH]; intros Hin; [reflexivity|].
  cbn [app getSubstitution].
  replace (N.eqb c 36) with false
    by (symmetry; apply N.eqb_neq; intros ->; apply Hin; now left).
  now rewrite IH by (intros H; apply Hin; now right).
Qed.

Lemma getSubstitution_plain (matched before after r : jsstring) :
  ~ In 36%N r -> getSubstitution matched before after r = r.
Proof.
  intros H; rewrite <- (app_nil_r r) at 1.
  rewrite getSubstitution_app by assumption; cbn [getSubstitution].
  apply app_nil_r.
Qed.

(** A requested content without dollar sign takes the place of the first
    "{content}" of the template as it is, unescaped; later placeholders
    stay, and a template without placeholder is served unchanged. *)
Theorem content_replaces_the_first_placeholder
  (DEFAULT_CONTENT template content : jsstring) :
  content <> [] ->
  ~ In 36%N content ->
  buildPage DEFAULT_CONTENT (Some template) (QueryString content) =
  match indexOf placeholder template with
  | None => template
  | Some i => firstn i template ++ content ++ skipn (i + 9) template
  end.
Proof.
  intros Hne Hin; unfold buildPage, replace.
  destruct content as [|c content]; [contradiction|].
  destruct (indexOf placeholder template) as [i|]; [|reflexivity].
  cbv zeta; now rewrite getSubstitution_plain.
Qed.

(** Dollar signs in the requested content are read as replacement
    patterns: "$$" is inserted as one dollar sign, and "$&" as the
    placeholder itself. *)
Theorem dollar_patterns_are_expanded
  (DEFAULT_CONTENT template a b : jsstring) (i : nat) :
  indexOf placeholder template = Some i ->
  ~ In 36%N a -> ~ In 36%N b ->
  buildPage DEFAULT_CONTENT (Some template) (QueryString (a ++ lit "$$" ++ b))
  = firstn i template ++ (a ++ lit "$" ++ b) ++ skipn (i + 9) template /\
  buildPage DEFAULT_CONTENT (Some template) (QueryString (a ++ lit "$&" ++ b))
  = firstn i template ++ (a ++ placeholder ++ b) ++ skipn (i + 9) template.
Proof.
  intros Hi Ha Hb; unfold buildPage, replace; rewrite Hi; cbv zeta.
  split.
  - destruct (a ++ lit "$$" ++ b) as [|c r] eqn:Hc;
      [now destruct a|rewrite <- Hc].
    rewrite getSubstitution_app by assumption.
    change (lit "$$" ++ b) with (36%N :: 36%N :: b).
    cbn [getSubstitution N.eqb Pos.eqb].
    now rewrite getSubstitution_plain by assumption.
  - destruct (a ++ lit "$&" ++ b) as [|c r] eqn:Hc;
      [now destruct a|rewrite <- Hc].
    rewrite getSubstitution_app by assumption.
    change (lit "$&" ++ b) with (36%N :: 38%N :: b).
    cbn [getSubstitution N.eqb Pos.eqb].
    now rewrite getSubstitution_plain by assumption.
Qed.

(** * Properties of the port *)

Lemma digit_is_not_space (c : N) :
  isDecimalDigit c = true ->
  isWhiteSpace c = false /\ N.eqb c 45 = false /\ N.eqb c 43 = false.
Proof.
  unfold isDecimalDigit, between; intros H.
  apply andb_true_iff in H as [H1 H2].
  apply N.leb_le in H1, H2.
  assert (Hc : (c = 48 \/ c = 49 \/ c = 50 \/ c = 51 \/ c = 52 \/ c = 53 \/
                c = 54 \/ c = 55 \/ c = 56 \/ c = 57)%N) by lia.
  repeat destruct Hc as [-> | Hc]; try subst c; repeat split.
Qed.

Lemma uint_digits_are_digits (d : Decimal.uint) :
  forallb isDecimalDigit (uint_digits d) = true.
Proof. induction d; cbn [uint_digits forallb]; now rewrite ?IHd. Qed.

Lemma digits_uint_digits (d : Decimal.uint) : digits_uint (uint_digits d) = d.
Proof. induction d; cbn [uint_digits digits_uint]; now rewrite ?IHd. Qed.

Lemma takeDigits_app (ds rest : jsstring) :
  forallb isDecimalDigit ds = true -> noLeadingDigit rest = true ->
  takeDigits (ds ++ rest) = ds.
Proof.
  intros Hd Hr; induction ds as [|c ds IH].
  - destruct rest as [|c rest]; [reflexivity|].
    cbn [app takeDigits]; cbn [noLeadingDigit] in Hr.
    apply negb_true_iff in Hr; now rewrite Hr.
  - cbn [forallb] in Hd; apply andb_true_iff in Hd as [Hc Hd].
    cbn [app takeDigits]; rewrite Hc, IH by assumption; reflexivity.
Qed.

Lemma decimal_head (n : N) :
  exists c r, decimal n = c :: r /\ isDecimalDigit c = true.
Proof.
  unfold decimal; pose proof (uint_digits_are_digits (N.to_uint n)) as Hd.
  destruct (uint_digits (N.to_uint n)) as [|c r] eqn:Hu.
  - exfalso.
    assert (Hn : N.to_uint n = Decimal.Nil)
      by (rewrite <- (digits_uint_digits (N.to_uint n)), Hu; reflexivity).
    pose proof (DecimalN.Unsigned.of_to n) as Hof; rewrite Hn in Hof.
    cbn in Hof; subst n; discriminate Hn.
  - cbn [forallb] in Hd; apply andb_true_iff in Hd as [Hc _]; eauto.
Qed.

Lemma parseInt_decimal (n : N) (rest : jsstring) :
  (n <= 9007199254740992)%N -> noLeadingDigit rest = true ->
  parseInt (decimal n ++ rest) = Integer false n /\
  parseInt (45%N :: decimal n ++ rest) = Integer true n.
Proof.
  intros Hn Hr.
  destruct (decimal_head n) as (c & r & Hd & Hc).
  destruct (digit_is_not_space c Hc) as (Hw & Hm & Hp).
  assert (Ht : takeDigits (decimal n ++ rest) = decimal n)
    by (apply takeDigits_app; [apply uint_digits_are_digits|assumption]).
  assert (Hv : N.of_uint (digits_uint (decimal n)) = n)
    by (unfold decimal; rewrite digits_uint_digits;
        apply DecimalN.Unsigned.of_to).
  apply N.leb_le in Hn.
  split; unfold parseInt, trimStart.
  - rewrite Hd; cbn [app dropWhile]; rewrite Hw.
    cbn [readSign]; rewrite Hm, Hp.
    change (c :: r ++ rest) with ((c :: r) ++ rest); rewrite <- Hd, Ht, Hd.
    rewrite <- Hd, Hv, Hn; reflexivity.
  - cbn [dropWhile]; change (isWhiteSpace 45) with false; cbv iota.
    cbn [readSign N.eqb Pos.eqb]; rewrite Ht, Hd, <- Hd, Hv, Hn; reflexivity.
Qed.

(** The port is the decimal number the environment variable begins with,
    whatever follows the digits, and a minus sign before them is kept:
    the value is neither checked against the range of ports nor for
    trailing text. *)
Theorem PORT_reads_the_leading_number (n : N) (rest : jsstring) :
  (n <= 9007199254740992)%N -> noLeadingDigit rest = true ->
  PORT (Some (decimal n ++ rest)) = Integer false n /\
  PORT (Some (45%N :: decimal n ++ rest)) = Integer true n.
Proof.
  intros Hn Hr; destruct (parseInt_decimal n rest Hn Hr) as [H1 H2].
  unfold PORT; now rewrite H1, H2.
Qed.

(** The port is 3000 when the variable is unset and whenever its value,
    after leading white space and an optional sign, does not begin with a
    digit: empty, blank and non-numeric values all give 3000. *)
Theorem PORT_defaults_to_3000 (value : jsstring) :
  noLeadingDigit (snd (readSign (trimStart value))) = true ->
  PORT (Some value) = Integer false 3000 /\ PORT None = Integer false 3000.
Proof.
  intros H; split; [|reflexivity].
  unfold PORT, parseInt.
  destruct (readSign (trimStart value)) as [negative s]; cbn [snd] in H.
  destruct s as [|c s]; [reflexivity|].
  cbn [noLeadingDigit] in H; apply negb_true_iff in H.
  cbn [takeDigits]; now rewrite H.
Qed.

(** * Instances of the further properties *)

Ltac no_line_break :=
  let H := fresh in intros H; vm_compute in H; intuition discriminate.

Ltac differs :=
  let H := fresh in intros H; vm_compute in H; discriminate H.

Ltac is_plain :=
  unfold plain;
  split; [differs | split; [no_line_break | split; vm_compute; reflexivity]].

Ltac frame_ok :=
  split; [is_plain | split; [differs | vm_compute; reflexivity]].

Ltac frames_ok :=
  repeat (apply Forall2_cons; [frame_ok|]); apply Forall2_nil.

Lemma nothing_is_sent_unless_open_witness :
  sent (run {| socket := CLOSING;
               stream := Some (AwaitRead [] newTextDecoder);
               sent := [MChunk (lit "Hi")] |}
          [Upstream (ReadValue (Sample.frame Sample.hiFrame));
           Upstream ReadDone]) =
  [MChunk (lit "Hi")].
Proof.
  apply (nothing_is_sent_unless_open
           {| socket := CLOSING;
              stream := Some (AwaitRead [] newTextDecoder);
              sent := [MChunk (lit "Hi")] |}).
  discriminate.
Defined.

Lemma missing_key_is_reported_witness :
  sent (run (connect (Some []))
          [Upstream (FetchResolved Sample.okResponse);
           Upstream (ReadValue (Sample.frame Sample.hiFrame))]) =
  [MError (lit "OPENAPI_API_KEY is not configured. Please add it to your environment.")].
Proof.
  apply (missing_key_is_reported (Some [])).
  now right.
Defined.

Lemma fetch_rejection_is_reported_witness :
  sent (run (connect (Some Sample.key))
          (Upstream (FetchRejected
                       (ErrorObject (lit "TypeError") (lit "fetch failed")))
           :: [Upstream ReadDone])) =
  [MError (lit "fetch failed")].
Proof.
  apply (fetch_rejection_is_reported Sample.key
           (ErrorObject (lit "TypeError") (lit "fetch failed"))).
  - discriminate.
  - reflexivity.
Defined.

Lemma read_failure_is_reported_witness :
  sent (run Sample.serving
          (Upstream (ReadRejected
                       (ErrorObject (lit "TypeError") (lit "terminated")))
           :: [SocketClose])) =
  sent Sample.serving ++ [MError (lit "terminated")].
Proof.
  apply (read_failure_is_reported Sample.serving [] newTextDecoder);
    reflexivity.
Defined.

Lemma throwing_frame_ends_the_session_witness :
  sent (run Sample.serving
          (Upstream
             (ReadValue (Sample.frame Sample.hiFrame
                         ++ Sample.frame "data: {'type':'response.error'}"
                         ++ Sample.frame "data: {'text':'late'}"))
           :: [Upstream ReadDone])) =
  sent Sample.serving ++ map MChunk [lit "Hi"] ++ [MError unknownError].
Proof.
  apply (throwing_frame_ends_the_session
           Sample.serving [] newTextDecoder _
           (jlit Sample.hiFrame ++ delimiter)
           (jlit "data: {'type':'response.error'}" ++ delimiter
            ++ jlit "data: {'text':'late'}" ++ delimiter)
           31 [lit "Hi"] (lit "Error"));
    vm_compute; try reflexivity; discriminate.
Defined.

Lemma processBuffer_keeps_the_unread_text_witness :
  exists consumed,
    jlit Sample.hiFrame ++ delimiter ++ lit "data: par"
    = consumed ++ lit "data: par".
Proof.
  apply (processBuffer_keeps_the_unread_text
           (jlit Sample.hiFrame ++ delimiter ++ lit "data: par")
           [lit "Hi"] Drained (lit "data: par")).
  vm_compute; reflexivity.
Defined.

Lemma frames_are_forwarded_in_order_witness :
  processBuffer
    (List.concat
       (map sse [jlit "{'type':'response.output_text.delta','delta':'Hi'}";
                 jlit "{'text':' there'}"])) =
  ([lit "Hi"; lit " there"], Drained, []).
Proof.
  apply (frames_are_forwarded_in_order
           [jlit "{'type':'response.output_text.delta','delta':'Hi'}";
            jlit "{'text':' there'}"]
           [lit "Hi"; lit " there"]).
  frames_ok.
Defined.

Lemma session_is_the_loop_on_the_whole_text_witness :
  sent (run (connect (Some Sample.key))
          (Upstream (FetchResolved Sample.okResponse)
           :: reads [Sample.wire "data: {'text':'a'}";
                     Sample.frame "";
                     Sample.frame "data: {'type':'response.error'}"]
           ++ [Upstream ReadDone])) =
  map MChunk [lit "a"] ++ [MError unknownError].
Proof.
  apply (session_is_the_loop_on_the_whole_text
           Sample.key Sample.okResponse _ [lit "a"]
           (Thrown (ErrorObject (lit "Error") unknownError)) []);
    try discriminate; vm_compute; reflexivity.
Defined.

Lemma stream_is_relayed_in_order_witness :
  sent (run (connect (Some Sample.key))
          (Upstream (FetchResolved Sample.okResponse)
           :: reads
                [Sample.wire "data: {'type':'response.output_text.delta','de";
                 Sample.wire "lta':'Hi'}" ++ [x0a];
                 [x0a] ++ Sample.wire "data: {'type':'response.output_text.delta','delta':' there'}"
                 ++ [x0a; x0a] ++ Sample.wire "data: [DO";
                 Sample.wire "NE]" ++ [x0a; x0a]]
           ++ [Upstream ReadDone])) =
  map MChunk [lit "Hi"; lit " there"] ++ [MDone].
Proof.
  apply (stream_is_relayed_in_order
           Sample.key Sample.okResponse _
           [jlit "{'type':'response.output_text.delta','delta':'Hi'}";
            jlit "{'type':'response.output_text.delta','delta':' there'}"]
           [lit "Hi"; lit " there"] (sse DONE ++ []) []);
    try discriminate; try reflexivity.
  - now right.
  - frames_ok.
Defined.

Lemma stream_without_blank_line_yields_nothing_witness :
  sent (run (connect (Some Sample.key))
          (Upstream (FetchResolved Sample.okResponse)
           :: reads [Sample.wire Sample.hiFrame ++ [x0d; x0a; x0d; x0a];
                     Sample.wire "data: [DONE]" ++ [x0d; x0a; x0d; x0a]]
           ++ [Upstream ReadDone])) = [MDone].
Proof.
  apply (stream_without_blank_line_yields_nothing
           Sample.key Sample.okResponse);
    try discriminate; vm_compute; reflexivity.
Defined.

Lemma chat_completion_content_is_forwarded_witness :
  handlePayload (jlit "{'choices':[{'delta':{'content':''}}]}") = Val None.
Proof.
  eapply (chat_completion_content_is_forwarded
            (jlit "{'choices':[{'delta':{'content':''}}]}") []);
    vm_compute; reflexivity.
Defined.

Lemma choices_hide_the_other_fields_witness :
  handlePayload
    (jlit "{'type':'response.error','choices':[{}],'content':'x'}")
  = Val None.
Proof.
  eapply (choices_hide_the_other_fields
            (jlit "{'type':'response.error','choices':[{}],'content':'x'}"));
    vm_compute; reflexivity.
Defined.

Lemma content_then_text_is_forwarded_witness :
  handlePayload (jlit "{'content':'','text':'t'}") = Val (Some [])
  /\ handlePayload (jlit "{'content':7,'text':'t'}") = Val (Some (lit "t")).
Proof.
  split.
  - refine (proj1 (content_then_text_is_forwarded
                     (jlit "{'content':'','text':'t'}")
                     [(lit "content", JString []);
                      (lit "text", JString (lit "t"))] _ _ _) _ _);
      vm_compute; reflexivity.
  - refine (proj2 (content_then_text_is_forwarded
                     (jlit "{'content':7,'text':'t'}")
                     [(lit "content", JNumber (lit "7"));
                      (lit "text", JString (lit "t"))] _ _ _) _ _ _);
      vm_compute; reflexivity.
Defined.

Lemma bare_error_is_thrown_witness :
  handlePayload (jlit "{'type':'response.error','error':{'code':7}}")
  = Exn (ErrorObject (lit "Error") unknownError).
Proof.
  eapply (bare_error_is_thrown
            (jlit "{'type':'response.error','error':{'code':7}}"));
    try (vm_compute; reflexivity).
  right; eexists; split; vm_compute; reflexivity.
Defined.

Lemma non_object_payload_is_ignored_witness :
  handlePayload (lit "null") = Val None.
Proof.
  apply (non_object_payload_is_ignored (lit "null") JNull);
    try reflexivity; discriminate.
Defined.

Lemma other_lines_are_ignored_witness :
  extractPayload (lit "data: x" ++ LF :: lit ": comment" ++ LF :: lit "data: z")
  = extractPayload (lit "data: x" ++ LF :: lit "data: z").
Proof.
  apply (other_lines_are_ignored (lit "data: x") (lit ": comment")
           (lit "data: z")).
  reflexivity.
Defined.

Lemma escapeHtml_is_injective_witness : lit "<b>R&D</b>" = lit "<b>R&D</b>".
Proof.
  apply (escapeHtml_is_injective (lit "<b>R&D</b>") (lit "<b>R&D</b>")).
  reflexivity.
Defined.

Lemma chunks_build_the_page_witness :
  received
    (fold_left onMessage
       [jlit "{'type':'chunk','data':'<h1>'}";
        jlit "{'type':'chunk','data':'Hi</h1>'}"]
       {| received := []; statusText := []; innerHTML := [];
          closeCalled := false |}) =
  [] ++ List.concat [lit "<h1>"; lit "Hi</h1>"].
Proof.
  apply (chunks_build_the_page
           {| received := []; statusText := []; innerHTML := [];
              closeCalled := false |}
           [jlit "{'type':'chunk','data':'<h1>'}";
            jlit "{'type':'chunk','data':'Hi</h1>'}"]
           [lit "<h1>"; lit "Hi</h1>"]).
  repeat constructor; eexists; repeat split; vm_compute; reflexivity.
Defined.

Lemma error_is_shown_escaped_witness :
  innerHTML
    (onMessage {| received := lit "<h1>"; statusText := [];
                  innerHTML := lit "<h1>"; closeCalled := false |}
       (jlit "{'type':'error','message':'<script>'}")) =
  errorOpen ++ escapeHtml (lit "<script>") ++ errorClose.
Proof.
  eapply (error_is_shown_escaped
            {| received := lit "<h1>"; statusText := [];
               innerHTML := lit "<h1>"; closeCalled := false |}
            (jlit "{'type':'error','message':'<script>'}"));
    vm_compute; reflexivity.
Defined.

Lemma first_relay_reports_every_explicit_error_witness :
  firstHandlePayload
    (jlit "{'type':'response.error','error':{'message':'Rate limit exceeded'}}")
  = Exn (ErrorObject (lit "Error") (lit "Rate limit exceeded")).
Proof.
  eapply (first_relay_reports_every_explicit_error
            (jlit "{'type':'response.error','error':{'message':'Rate limit exceeded'}}"));
    vm_compute; reflexivity.
Defined.

Lemma relay_extends_the_first_relay_witness :
  (forall text,
      firstHandlePayload
        (jlit "{'type':'response.output_text.delta','delta':'Hi'}")
      = Val (Some text) ->
      handlePayload
        (jlit "{'type':'response.output_text.delta','delta':'Hi'}")
      = Val (Some text)) /\
  (forall e,
      handlePayload
        (jlit "{'type':'response.output_text.delta','delta':'Hi'}")
      = Exn e ->
      firstHandlePayload
        (jlit "{'type':'response.output_text.delta','delta':'Hi'}")
      = Exn e).
Proof.
  apply (relay_extends_the_first_relay
           (jlit "{'type':'response.output_text.delta','delta':'Hi'}"));
    vm_compute; reflexivity.
Defined.

Lemma content_replaces_the_first_placeholder_witness :
  buildPage (lit "<main></main>")
    (Some (lit "<body>{content}{content}</body>"))
    (QueryString (lit "<h1>Hello</h1>")) =
  lit "<body><h1>Hello</h1>{content}</body>".
Proof.
  apply (content_replaces_the_first_placeholder
           (lit "<main></main>") (lit "<body>{content}{content}</body>")
           (lit "<h1>Hello</h1>")).
  - discriminate.
  - no_line_break.
Defined.

Lemma dollar_patterns_are_expanded_witness :
  buildPage (lit "<main></main>") (Some (lit "<body>{content}</body>"))
    (QueryString (lit "only " ++ lit "$$" ++ lit "5")) =
  firstn 6 (lit "<body>{content}</body>")
  ++ (lit "only " ++ lit "$" ++ lit "5")
  ++ skipn (6 + 9) (lit "<body>{content}</body>").
Proof.
  apply (dollar_patterns_are_expanded
           (lit "<main></main>") (lit "<body>{content}</body>")
           (lit "only ") (lit "5") 6).
  - reflexivity.
  - no_line_break.
  - no_line_break.
Defined.

Lemma PORT_reads_the_leading_number_witness :
  PORT (Some (decimal 8080 ++ lit "/tcp")) = Integer false 8080.
Proof.
  apply (PORT_reads_the_leading_number 8080 (lit "/tcp")).
  - vm_compute; discriminate.
  - reflexivity.
Defined.

Lemma PORT_defaults_to_3000_witness :
  PORT (Some (lit "  port")) = Integer false 3000.
Proof.
  apply (PORT_defaults_to_3000 (lit "  port")).
  reflexivity.
Defined.
